(** * Resilience middleware and TTL cache of the FastAPI demo service

    A shallow embedding of [app/middleware/resilience.py] (circuit breaker,
    sliding-window rate limiter, metrics collector) and of
    [app/services/cache.py] (TTL cache), followed by the properties of the
    specification that concern them.

    Conventions of the embedding:
    - Python [int] values are [Z].
    - [time.time()] values and latencies are Python floats; they are modelled
      as exact rationals ([Qc], rationals in lowest terms, so that equality is
      Leibniz equality).  Rounding of float arithmetic is not modelled.
    - [datetime] values are integers: microseconds since the epoch, which is
      the resolution of Python's [datetime].
    - every clock read of the source is an explicit argument of the model.
    - dictionaries are [gmap]s; mutation of an object held in a dictionary is
      an update of the map at its key. *)

From Stdlib Require Import ZArith QArith Qcanon Qround.
From stdpp Require Import base numbers list strings gmap pretty.
From Stdlib Require Import Lqa.

Local Open Scope Z_scope.

(** ** Python primitives *)

(** [int(x)] on a float: truncation toward zero. *)
Definition py_int (x : Qc) : Z :=
  Z.quot (Qnum (this x)) (Zpos (Qden (this x))).

(** [math.ceil], as the specification uses it. *)
Definition ceil (x : Qc) : Z := Qceiling (this x).

(** [math.floor]. *)
Definition floor (x : Qc) : Z := Qfloor (this x).

(** [str(n)] for an integer. *)
Definition str (n : Z) : string := pretty n.

(** ** Circuit breaker: [class CircuitBreaker] *)

Module CircuitBreaker.

Inductive breaker_state : Type := CLOSED | OPEN | HALF_OPEN.

#[global] Instance breaker_state_eq_dec : EqDecision breaker_state.
Proof. solve_decision. Defined.

(** The exception raised by [__aenter__] while the circuit is open. *)
Inductive HTTPException : Type := HTTP_503_SERVICE_UNAVAILABLE.

Section Breaker.
(** The exception types the guarded operation can raise. *)
Context {Exc : Type}.

(** The attributes of a breaker.  [expected_exception] is the configured
    exception class, given by its membership test
    [issubclass(exc_type, self.expected_exception)]. *)
Record t : Type := mk {
  failure_threshold : Z;
  timeout : Z;
  expected_exception : Exc → bool;
  failure_count : Z;
  last_failure_time : option Qc;
  state : breaker_state
}.

Definition set_state (s : breaker_state) (b : t) : t :=
  mk (failure_threshold b) (timeout b) (expected_exception b)
     (failure_count b) (last_failure_time b) s.

Definition set_failure_count (n : Z) (b : t) : t :=
  mk (failure_threshold b) (timeout b) (expected_exception b)
     n (last_failure_time b) (state b).

Definition set_last_failure_time (o : option Qc) (b : t) : t :=
  mk (failure_threshold b) (timeout b) (expected_exception b)
     (failure_count b) o (state b).

(** [__init__] *)
Definition init (failure_threshold timeout : Z)
    (expected_exception : Exc → bool) : t :=
  mk failure_threshold timeout expected_exception 0 None CLOSED.

(** Truth value of [self.last_failure_time], a [float | None]: [None] and
    [0.0] are false. *)
Definition truthy (o : option Qc) : bool :=
  match o with
  | Some x => bool_decide (x ≠ Q2Qc 0)
  | None => false
  end.

(** [__aenter__]; [now] is the value of [time.time()]. *)
Definition aenter (now : Qc) (b : t) : (unit + HTTPException) * t :=
  if decide (state b = OPEN) then
    if truthy (last_failure_time b)
       && bool_decide (Qc_of_Z (timeout b)
                         ≤ now - default (Q2Qc 0) (last_failure_time b))%Qc
    then (inl (), set_state HALF_OPEN b)
    else (inr HTTP_503_SERVICE_UNAVAILABLE, b)
  else (inl (), b).

(** [__aexit__]; [exc_type] is [None] when the block completed and the
    raised exception otherwise; the result is the value returned to the
    [async with] statement (true would suppress the exception). *)
Definition aexit (now : Qc) (exc_type : option Exc) (b : t) : bool * t :=
  match exc_type with
  | None =>
      if decide (state b = HALF_OPEN)
      then (false, set_failure_count 0 (set_state CLOSED b))
      else (false, b)
  | Some e =>
      if expected_exception b e then
        let b1 := set_failure_count (failure_count b + 1) b in
        let b2 := set_last_failure_time (Some now) b1 in
        if decide (failure_threshold b2 ≤ failure_count b2)
        then (false, set_state OPEN b2)
        else (false, b2)
      else (false, b)
  end.

(** What the caller of [async with breaker: body] observes. *)
Inductive outcome (A : Type) : Type :=
  | Returned (a : A)        (* the block completed with a result *)
  | Suppressed              (* the block raised, [__aexit__] swallowed it *)
  | Raised (e : Exc)        (* the block's exception reaches the caller *)
  | Unavailable (h : HTTPException). (* [__aenter__] raised *)

(** The statement [async with breaker: body].  The guarded operation acts
    on a world [W] of its own, so that "the operation was not invoked"
    is "the world is unchanged, whatever the operation". *)
Definition async_with {W A : Type} (t_enter t_exit : Qc)
    (body : W → (A + Exc) * W) (w : W) (b : t) : outcome A * W * t :=
  match aenter t_enter b with
  | (inr h, b1) => (Unavailable A h, w, b1)
  | (inl _, b1) =>
      match body w with
      | (inl a, w1) =>
          let '(_, b2) := aexit t_exit None b1 in (Returned A a, w1, b2)
      | (inr e, w1) =>
          let '(suppress, b2) := aexit t_exit (Some e) b1 in
          if suppress then (Suppressed A, w1, b2)
          else (Raised A e, w1, b2)
      end
  end.

(** Guarded calls in a row, one per element of [times], which gives the
    clock at the entry and at the exit of each call. *)
Fixpoint calls {W A : Type} (times : list (Qc * Qc))
    (body : W → (A + Exc) * W) (w : W) (b : t) : list (outcome A) * W * t :=
  match times with
  | [] => ([], w, b)
  | (t_enter, t_exit) :: times' =>
      let '(o, w1, b1) := async_with t_enter t_exit body w b in
      let '(os, w2, b2) := calls times' body w1 b1 in
      (o :: os, w2, b2)
  end.

(** The events that change a breaker, and the states they reach from
    [__init__].  Clock values are Unix times, hence positive. *)
Inductive reachable (thr tmo : Z) (exp : Exc → bool) : t → Prop :=
  | reach_init : reachable thr tmo exp (init thr tmo exp)
  | reach_enter b now :
      reachable thr tmo exp b → (0 < now)%Qc →
      reachable thr tmo exp (aenter now b).2
  | reach_exit b now exc_type :
      reachable thr tmo exp b → (0 < now)%Qc →
      reachable thr tmo exp (aexit now exc_type b).2.

(** What every state reached from [__init__] satisfies: the
    configuration is fixed, the circuit is only open or half open once the
    failure count has reached the threshold, and then the time of the last
    failure is known and positive. *)
Record inv (thr tmo : Z) (exp : Exc → bool) (b : t) : Prop := {
  inv_threshold : failure_threshold b = thr;
  inv_timeout : timeout b = tmo;
  inv_expected : expected_exception b = exp;
  inv_count : 0 ≤ failure_count b;
  inv_open : state b ≠ CLOSED → thr ≤ failure_count b;
  inv_time : state b ≠ CLOSED → is_Some (last_failure_time b);
  inv_positive : ∀ x, last_failure_time b = Some x → (0 < x)%Qc
}.

(** The specification's row for CLOSED, on success: the breaker stays
    CLOSED and the failure count goes back to 0. *)
Definition closed_success_resets_count : Prop :=
  ∀ thr tmo exp (b : t) now,
    reachable thr tmo exp b → state b = CLOSED →
    state (aexit now None b).2 = CLOSED
    ∧ failure_count (aexit now None b).2 = 0.

End Breaker.

Arguments t : clear implicits.
Arguments outcome : clear implicits.
Arguments Returned {Exc A}.
Arguments Suppressed {Exc A}.
Arguments Raised {Exc A}.
Arguments Unavailable {Exc A}.
Arguments closed_success_resets_count : clear implicits.

(** A breaker for examples: every exception counts as a failure. *)
Definition any_exception : unit → bool := λ _, true.

(** A guarded operation that always raises, and one that always returns;
    the world counts the invocations. *)
Definition failing_op : nat → (unit + unit) * nat :=
  λ w, (inr (), S w).
Definition working_op : nat → (unit + unit) * nat :=
  λ w, (inl (), S w).

(** A breaker of threshold 5 after one failure. *)
Definition one_failure : t unit :=
  (aexit (Qc_of_Z 100) (Some ()) (init 5 60 any_exception)).2.

(** A breaker of threshold 2 and timeout 60 after two failing calls, the
    second of which ends at time 4; and the same breaker after an entry at
    time 100. *)
Definition open_breaker : t unit :=
  (calls [(Qc_of_Z 1, Qc_of_Z 2); (Qc_of_Z 3, Qc_of_Z 4)]
         failing_op 0%nat (init 2 60 any_exception)).2.
Definition half_open_breaker : t unit :=
  (aenter (Qc_of_Z 100) open_breaker).2.

(** *** Sequences of outcomes *)

Section Accounting.
Context {Exc A : Type}.

(** Whether what the caller of a guarded block observed is an exception of
    the configured class. *)
Definition is_classified (exp : Exc → bool) (o : outcome Exc A) : bool :=
  match o with
  | Raised e => exp e
  | _ => false
  end.

(** The number of such exceptions among the outcomes of a sequence of
    guarded blocks. *)
Definition classified_failures (exp : Exc → bool)
    (os : list (outcome Exc A)) : nat :=
  length (filter (λ o, is_classified exp o = true) os).

End Accounting.

(** A breaker that only counts the exception [true]; and an operation
    that plays the results listed in the world, one per call. *)
Definition only_true : bool → bool := λ e, e.
Definition scripted
    : list (unit + bool) → (unit + bool) * list (unit + bool) :=
  λ w, match w with
       | [] => (inl (), [])
       | result :: w1 => (result, w1)
       end.

End CircuitBreaker.

(** ** Sliding-window rate limiter: [class RateLimitMiddleware] *)

Module RateLimitMiddleware.

(** The fields of [app.core.config.Settings] the limiter reads. *)
Record Settings : Type := {
  RATE_LIMIT_ENABLED : bool;
  RATE_LIMIT_REQUESTS : Z;
  RATE_LIMIT_WINDOW_SECONDS : Z;
  AUTH_RATE_LIMIT_REQUESTS : Z;
  AUTH_RATE_LIMIT_WINDOW_SECONDS : Z;
  UPLOAD_RATE_LIMIT_REQUESTS : Z;
  UPLOAD_RATE_LIMIT_WINDOW_SECONDS : Z
}.

(** The defaults of [app/core/config.py]. *)
Definition default_settings : Settings :=
  {| RATE_LIMIT_ENABLED := true;
     RATE_LIMIT_REQUESTS := 100;
     RATE_LIMIT_WINDOW_SECONDS := 60;
     AUTH_RATE_LIMIT_REQUESTS := 5;
     AUTH_RATE_LIMIT_WINDOW_SECONDS := 300;
     UPLOAD_RATE_LIMIT_REQUESTS := 10;
     UPLOAD_RATE_LIMIT_WINDOW_SECONDS := 300 |}.

(** What [dispatch] reads of a request: [request.client.host] when
    [request.client] is set, and [request.url.path]. *)
Record Request : Type := {
  client : option string;
  path : string
}.

Inductive json : Type :=
  | JStr (s : string)
  | JInt (n : Z).

#[global] Instance json_eq_dec : EqDecision json.
Proof. solve_decision. Defined.

(** A response: status, JSON body, and the headers set explicitly. *)
Record Response : Type := {
  status_code : Z;
  content : list (string * json);
  headers : gmap string string
}.

Definition HTTP_429_TOO_MANY_REQUESTS : Z := 429.

(** [JSONResponse(status_code=..., content=..., headers=...)] *)
Definition JSONResponse (status_code : Z) (content : list (string * json))
    (headers : gmap string string) : Response :=
  {| status_code := status_code; content := content; headers := headers |}.

(** [response.headers[k] = v] *)
Definition set_header (k v : string) (r : Response) : Response :=
  {| status_code := status_code r;
     content := content r;
     headers := <[k := v]> (headers r) |}.

(** The middleware object: its settings and [self.client_requests], one
    deque of timestamps per client IP. *)
Record t : Type := {
  settings : Settings;
  client_requests : gmap string (list Qc)
}.

(** [__init__] *)
Definition init (s : Settings) : t :=
  {| settings := s; client_requests := ∅ |}.

(** [_get_limit_for_endpoint] *)
Definition _get_limit_for_endpoint (self : t) (path : string) : Z * Z :=
  if String.prefix "/api/v1/security" path then
    (AUTH_RATE_LIMIT_REQUESTS (settings self),
     AUTH_RATE_LIMIT_WINDOW_SECONDS (settings self))
  else if String.prefix "/api/v1/files" path then
    (UPLOAD_RATE_LIMIT_REQUESTS (settings self),
     UPLOAD_RATE_LIMIT_WINDOW_SECONDS (settings self))
  else
    (RATE_LIMIT_REQUESTS (settings self),
     RATE_LIMIT_WINDOW_SECONDS (settings self)).

(** [while client_queue and client_queue[0] < bound: client_queue.popleft()] *)
Fixpoint purge (bound : Qc) (client_queue : list Qc) : list Qc :=
  match client_queue with
  | [] => []
  | oldest :: rest =>
      if decide (oldest < bound)%Qc then purge bound rest else client_queue
  end.

(** [client_queue[0]] on an empty deque. *)
Inductive exn : Type := IndexError.

(** What [dispatch] awaits.  While [dispatch] is suspended at
    [await call_next(request)], other requests run on the same middleware
    object and may change [self.client_requests]: the handler is given the
    deques as [dispatch] leaves them at the await, and returns its response
    together with the deques as they are when [dispatch] resumes. *)
Definition in_flight : Type :=
  Request → gmap string (list Qc) → Response * gmap string (list Qc).

(** [dispatch]; [now] is the value of [time.time()], [call_next] the rest
    of the pipeline.  The deque of the client is mutated in place, so the
    purge is kept on both the admitted and the rejected path.  After the
    await, [client_queue] is still the deque object held under the key of
    the client (the code never replaces nor removes an entry of the
    dictionary), so [len(client_queue)] is the length of the deque found
    under that key when [dispatch] resumes. *)
Definition dispatch_in_flight (now : Qc) (request : Request)
    (call_next : in_flight) (self : t) : (Response + exn) * t :=
  if negb (RATE_LIMIT_ENABLED (settings self)) then
    let '(response, requests) := call_next request (client_requests self) in
    (inl response,
     {| settings := settings self; client_requests := requests |})
  else
    let client_ip := default "unknown" (client request) in
    let '(max_requests, window_seconds) :=
      _get_limit_for_endpoint self (path request) in
    let requests0 :=
      match client_requests self !! client_ip with
      | Some _ => client_requests self
      | None => <[client_ip := []]> (client_requests self)
      end in
    let client_queue :=
      purge (now - Qc_of_Z window_seconds)
            (default [] (requests0 !! client_ip)) in
    let requests1 := <[client_ip := client_queue]> requests0 in
    if decide (max_requests ≤ Z.of_nat (length client_queue)) then
      match client_queue with
      | [] =>
          (inr IndexError,
           {| settings := settings self; client_requests := requests1 |})
      | oldest_request :: _ =>
          let retry_after :=
            py_int (oldest_request + Qc_of_Z window_seconds - now) + 1 in
          (inl (JSONResponse HTTP_429_TOO_MANY_REQUESTS
                  [("error", JStr "rate_limit_exceeded");
                   ("message",
                    JStr ("Too many requests. Max " +:+ str max_requests
                          +:+ " requests per " +:+ str window_seconds
                          +:+ " seconds"));
                   ("retry_after_seconds", JInt retry_after)]
                  {[ "Retry-After" := str retry_after ]}),
           {| settings := settings self; client_requests := requests1 |})
      end
    else
      let client_queue1 := client_queue ++ [now] in
      let requests2 := <[client_ip := client_queue1]> requests1 in
      let '(response, requests3) := call_next request requests2 in
      let client_queue2 := default [] (requests3 !! client_ip) in
      let response :=
        set_header "X-RateLimit-Limit" (str max_requests) response in
      let response :=
        set_header "X-RateLimit-Remaining"
          (str (Z.max 0 (max_requests - Z.of_nat (length client_queue2))))
          response in
      let response :=
        set_header "X-RateLimit-Reset"
          (str (py_int (now + Qc_of_Z window_seconds))) response in
      (inl response,
       {| settings := settings self; client_requests := requests3 |}).

(** A handler during which no other request touches the limiter. *)
Definition alone (call_next : Request → Response) : in_flight :=
  λ request requests, (call_next request, requests).

(** [dispatch] when the request is handled alone: nothing else runs on the
    middleware between the await and the return of [call_next]. *)
Definition dispatch (now : Qc) (request : Request)
    (call_next : Request → Response) (self : t) : (Response + exn) * t :=
  dispatch_in_flight now request (alone call_next) self.

(** The endpoint classes of [_get_limit_for_endpoint]. *)
Inductive endpoint_class : Type := Auth | Upload | General.

#[global] Instance endpoint_class_eq_dec : EqDecision endpoint_class.
Proof. solve_decision. Defined.

Definition class_of (path : string) : endpoint_class :=
  if String.prefix "/api/v1/security" path then Auth
  else if String.prefix "/api/v1/files" path then Upload
  else General.

(** The response is the limiter's own rejection. *)
Definition rejected (r : Response + exn) : bool :=
  match r with
  | inl resp =>
      bool_decide (content resp !! 0%nat
                   = Some ("error", JStr "rate_limit_exceeded"))
  | inr _ => false
  end.

(** The value the rejection reports as [retry_after_seconds]. *)
Definition retry_after_seconds (r : Response + exn) : option Z :=
  match r with
  | inl resp =>
      match content resp !! 2%nat with
      | Some (_, JInt n) => Some n
      | _ => None
      end
  | inr _ => None
  end.


(** Names for what one run of [dispatch] computes first: the client key,
    the quota of the endpoint, and the client's deque after the purge. *)
Definition client_ip (request : Request) : string :=
  default "unknown" (client request).
Definition max_requests_for (self : t) (request : Request) : Z :=
  (_get_limit_for_endpoint self (path request)).1.
Definition window_seconds_for (self : t) (request : Request) : Z :=
  (_get_limit_for_endpoint self (path request)).2.
Definition purged_window (now : Qc) (request : Request) (self : t)
    : list Qc :=
  purge (now - Qc_of_Z (window_seconds_for self request))
        (default [] (client_requests self !! client_ip request)).

(** The time a rejected client still has to wait in exact arithmetic:
    [oldest_request + window_seconds - now]. *)
Definition wait (now : Qc) (request : Request) (self : t)
    (oldest_request : Qc) : Qc :=
  (oldest_request + Qc_of_Z (window_seconds_for self request) - now)%Qc.

(** The specification's reading of the windows: a request of one endpoint
    class leaves what the client's other classes see unchanged, the
    window they read and whether they are admitted. *)
Definition endpoint_classes_isolated : Prop :=
  ∀ self now1 now2 request1 request2 call_next,
    RATE_LIMIT_ENABLED (settings self) = true →
    client_ip request1 = client_ip request2 →
    class_of (path request1) ≠ class_of (path request2) →
    (now1 ≤ now2)%Qc →
    let self1 := (dispatch now1 request1 call_next self).2 in
    client_requests self1 !! client_ip request2
    = client_requests self !! client_ip request2
    ∧ rejected (dispatch now2 request2 call_next self1).1
      = rejected (dispatch now2 request2 call_next self).1.

(** The three headers of the specification on a response, for a window
    that holds [count] timestamps. *)
Definition carries_metadata (max_requests : Z) (count : nat)
    (r : Response) : Prop :=
  headers r !! "X-RateLimit-Limit" = Some (str max_requests)
  ∧ headers r !! "X-RateLimit-Remaining"
    = Some (str (Z.max 0 (max_requests - Z.of_nat count)))
  ∧ is_Some (headers r !! "X-RateLimit-Reset").

(** The specification's side effect: every response of the limiter,
    admitted or rejected, carries the metadata for the window the client
    is left with. *)
Definition metadata_on_every_path : Prop :=
  ∀ self now request call_next r self1,
    RATE_LIMIT_ENABLED (settings self) = true →
    dispatch now request call_next self = (inl r, self1) →
    carries_metadata (max_requests_for self request)
      (length (default [] (client_requests self1 !! client_ip request))) r.

(** The specification's hint on rejection: the ceiling of the time left
    until the oldest timestamp leaves the window. *)
Definition retry_after_is_ceil : Prop :=
  ∀ self now request call_next oldest_request rest,
    RATE_LIMIT_ENABLED (settings self) = true →
    purged_window now request self = oldest_request :: rest →
    max_requests_for self request
      ≤ Z.of_nat (length (oldest_request :: rest)) →
    retry_after_seconds (dispatch now request call_next self).1
    = Some (ceil (wait now request self oldest_request)).

(** Example inputs: a downstream handler, two requests of one client, one
    of another, and the limiter after that client made requests at the
    times 100, 101, 102 and 103 under the default settings. *)
Definition ok_handler : Request → Response :=
  λ _, {| status_code := 200; content := []; headers := ∅ |}.
Definition general_request : Request :=
  {| client := Some "1.2.3.4"; path := "/api/v1/users" |}.
Definition auth_request : Request :=
  {| client := Some "1.2.3.4"; path := "/api/v1/security/login" |}.
Definition other_request : Request :=
  {| client := Some "5.6.7.8"; path := "/api/v1/security/login" |}.
(** A handler during which a second request of the client 1.2.3.4 is
    let through and recorded at time 131. *)
Definition busy_handler : in_flight :=
  λ request requests,
    (ok_handler request,
     <["1.2.3.4" := default [] (requests !! "1.2.3.4") ++ [Qc_of_Z 131]]>
       requests).
Definition four_requests : t :=
  foldl (λ self now, (dispatch (Qc_of_Z now) general_request ok_handler
                        self).2)
        (init default_settings) [100; 101; 102; 103].
Definition five_requests : t :=
  (dispatch (Qc_of_Z 104) general_request ok_handler four_requests).2.

(** A deque of timestamps in the order of the clock, oldest first. *)
Fixpoint ascending (client_queue : list Qc) : Prop :=
  match client_queue with
  | [] => True
  | oldest :: rest => Forall (λ t, (oldest ≤ t)%Qc) rest ∧ ascending rest
  end.

(** The deque of a client, empty when the client is not known. *)
Definition window_of (request : Request) (self : t) : list Qc :=
  default [] (client_requests self !! client_ip request).

(** A limiter with a quota of 0 for every endpoint. *)
Definition zero_quota : Settings :=
  {| RATE_LIMIT_ENABLED := true;
     RATE_LIMIT_REQUESTS := 0;
     RATE_LIMIT_WINDOW_SECONDS := 60;
     AUTH_RATE_LIMIT_REQUESTS := 0;
     AUTH_RATE_LIMIT_WINDOW_SECONDS := 300;
     UPLOAD_RATE_LIMIT_REQUESTS := 0;
     UPLOAD_RATE_LIMIT_WINDOW_SECONDS := 300 |}.

(** The limiter after the same request was made at each of the given
    times, in that order. *)
Definition dispatch_all (times : list Qc) (request : Request)
    (call_next : Request → Response) (self : t) : t :=
  foldl (λ self now, (dispatch now request call_next self).2) self times.

End RateLimitMiddleware.

(** ** TTL cache: [class CacheService] *)

Module CacheService.

(** [self._stats] *)
Module Stats.
Record t : Type := mk {
  hits : Z;
  misses : Z;
  sets : Z;
  deletes : Z;
  evictions : Z
}.
End Stats.

Section Cache.
(** The cached payloads. *)
Context {V : Type}.

(** [class CacheEntry]; the two timestamps are [datetime]s. *)
Record CacheEntry : Type := {
  value : V;
  expires_at : Z;
  created_at : Z;
  hits : Z
}.

(** [CacheEntry.is_expired]; [now] is [datetime.utcnow()]. *)
Definition is_expired (now : Z) (entry : CacheEntry) : bool :=
  bool_decide (expires_at entry < now).

(** [CacheEntry.increment_hits] *)
Definition increment_hits (entry : CacheEntry) : CacheEntry :=
  {| value := value entry;
     expires_at := expires_at entry;
     created_at := created_at entry;
     hits := hits entry + 1 |}.

(** The service object, without its lock and its cleanup task. *)
Record t : Type := {
  _cache : gmap string CacheEntry;
  _default_ttl : Z;
  _stats : Stats.t
}.

(** [__init__] *)
Definition init (default_ttl : Z) : t :=
  {| _cache := ∅;
     _default_ttl := default_ttl;
     _stats := Stats.mk 0 0 0 0 0 |}.

Definition with_cache (c : gmap string CacheEntry) (self : t) : t :=
  {| _cache := c; _default_ttl := _default_ttl self;
     _stats := _stats self |}.

Definition with_stats (s : Stats.t) (self : t) : t :=
  {| _cache := _cache self; _default_ttl := _default_ttl self;
     _stats := s |}.

(** [self._stats[k] += 1], one definition per key. *)
Definition bump_hits (s : Stats.t) : Stats.t :=
  Stats.mk (Stats.hits s + 1) (Stats.misses s) (Stats.sets s)
           (Stats.deletes s) (Stats.evictions s).
Definition bump_misses (s : Stats.t) : Stats.t :=
  Stats.mk (Stats.hits s) (Stats.misses s + 1) (Stats.sets s)
           (Stats.deletes s) (Stats.evictions s).
Definition bump_sets (s : Stats.t) : Stats.t :=
  Stats.mk (Stats.hits s) (Stats.misses s) (Stats.sets s + 1)
           (Stats.deletes s) (Stats.evictions s).
Definition bump_deletes (s : Stats.t) : Stats.t :=
  Stats.mk (Stats.hits s) (Stats.misses s) (Stats.sets s)
           (Stats.deletes s + 1) (Stats.evictions s).
Definition bump_evictions (s : Stats.t) : Stats.t :=
  Stats.mk (Stats.hits s) (Stats.misses s) (Stats.sets s)
           (Stats.deletes s) (Stats.evictions s + 1).

(** [get]; the result is [None] for Python's [None]. *)
Definition get (now : Z) (key : string) (self : t) : option V * t :=
  match _cache self !! key with
  | None => (None, with_stats (bump_misses (_stats self)) self)
  | Some entry =>
      if is_expired now entry then
        (None,
         with_stats (bump_evictions (bump_misses (_stats self)))
           (with_cache (base.delete key (_cache self)) self))
      else
        let entry1 := increment_hits entry in
        (Some (value entry1),
         with_stats (bump_hits (_stats self))
           (with_cache (<[key := entry1]> (_cache self)) self))
  end.

(** The range of [datetime], in microseconds since the epoch:
    0001-01-01 00:00:00 and 9999-12-31 23:59:59.999999. *)
Definition datetime_min : Z := -62135596800000000.
Definition datetime_max : Z := 253402300799999999.

(** What [set] raises. *)
Inductive exn : Type := OverflowError.

(** [set]; [now] and [now1] are the two reads of [datetime.utcnow()],
    [ttl] is in seconds.  [datetime.utcnow() + timedelta(seconds=ttl)]
    raises [OverflowError] when the sum is not a [datetime] (for a clock
    that is one, a [ttl] too large for [timedelta] gives such a sum); this
    happens before anything is stored or counted. *)
Definition set (now now1 : Z) (key : string) (v : V) (ttl : option Z)
    (self : t) : (unit + exn) * t :=
  let ttl := default (_default_ttl self) ttl in
  let expires_at := now + ttl * 1000000 in
  if decide (datetime_min ≤ expires_at ≤ datetime_max) then
    let entry :=
      {| value := v; expires_at := expires_at; created_at := now1;
         hits := 0 |} in
    (inl (),
     with_stats (bump_sets (_stats self))
       (with_cache (<[key := entry]> (_cache self)) self))
  else (inr OverflowError, self).

(** [r is not None] for the result [r] of [get], where [is_None] tells
    the stored values that are Python's [None]: the lookup was served and
    the value it served is not [None]. *)
Definition is_not_None (is_None : V → bool) (r : option V) : bool :=
  match r with
  | Some v => negb (is_None v)
  | None => false
  end.

(** [delete] *)
Definition delete (key : string) (self : t) : bool * t :=
  match _cache self !! key with
  | Some _ =>
      (true,
       with_stats (bump_deletes (_stats self))
         (with_cache (base.delete key (_cache self)) self))
  | None => (false, self)
  end.

(** [clear] *)
Definition clear (self : t) : t := with_cache ∅ self.

(** [exists]; an entry object is always true as a condition, so
    [entry and ...] only tests that the key is present. *)
Definition exists_ (now : Z) (key : string) (self : t) : bool * t :=
  match _cache self !! key with
  | Some entry => if negb (is_expired now entry) then (true, self)
                  else (false, self)
  | None => (false, self)
  end.

(** [get_keys_by_pattern].  The keys come in the order of the map, not
    in the insertion order of the Python dictionary. *)
Definition get_keys_by_pattern (pattern : string) (self : t)
    : list string :=
  filter (λ key, String.prefix pattern key = true)
         (map_to_list (_cache self)).*1.

(** [invalidate_pattern] *)
Definition invalidate_pattern (pattern : string) (self : t) : Z * t :=
  let keys := get_keys_by_pattern pattern self in
  (Z.of_nat (length keys),
   foldl (λ self key, (delete key self).2) self keys).

(** [_cleanup_expired], with one clock read for the whole scan. *)
Definition _cleanup_expired (now : Z) (self : t) : t :=
  let expired_keys :=
    (filter (λ kv, is_expired now kv.2 = true)
            (map_to_list (_cache self))).*1 in
  foldl (λ self key,
           with_stats (bump_evictions (_stats self))
             (with_cache (base.delete key (_cache self)) self))
        self expired_keys.

End Cache.

Arguments CacheEntry : clear implicits.
Arguments t : clear implicits.


(** The specification's [keysByPrefix]: exactly the keys with the prefix
    whose entry has not expired at the time of the call. *)
Definition keys_exclude_expired : Prop :=
  ∀ (now : Z) (self : t nat) (pattern key : string),
    key ∈ get_keys_by_pattern pattern self
    ↔ ∃ entry, _cache self !! key = Some entry
               ∧ is_expired now entry = false
               ∧ String.prefix pattern key = true.

(** Example inputs: a cache where "user:1" was stored at time 0 for one
    second and "user:2" at time 0 for an hour; and the same cache two
    seconds later, where the first entry has expired and is still in the
    map. *)
Definition two_users : t nat :=
  (set 0 0 "user:2" 22%nat (Some 3600)
     (set 0 0 "user:1" 11%nat (Some 1) (init 300)).2).2.
Definition two_seconds : Z := 2000000.


(** *** The decorator [cache_result] *)

Section Decorator.
(** The cached results, with the test [v is None]; the arguments of the
    decorated function; the digest [generate_cache_key] of the arguments
    (an MD5 digest of their JSON form in the source, kept abstract here);
    and the world the decorated function acts on. *)
Context {V Args W : Type}.
Context (is_None : V → bool).
Context (generate_cache_key : Args → string).

(** [f"{key_prefix}:{func.__name__}:{generate_cache_key(*args, **kwargs)}"] *)
Definition cache_key (key_prefix func_name : string) (args : Args) : string :=
  key_prefix +:+ ":" +:+ func_name +:+ ":" +:+ generate_cache_key args.

(** One call of the wrapper that [cache_result(ttl, key_prefix)] puts
    around [func]: [now] is the clock of the lookup, [now1] and [now2] the
    two clock reads of [set].  [cache] is the global instance of
    [get_cache()].  When [set] raises, the function has run and its result
    is lost: the exception reaches the caller. *)
Definition cache_result (ttl : Z) (key_prefix func_name : string)
    (func : Args → W → V * W) (now now1 now2 : Z)
    (args : Args) (w : W) (cache : t V) : (V + exn) * W * t V :=
  let key := cache_key key_prefix func_name args in
  let '(cached_value, cache1) := get now key cache in
  let call_and_store :=
    let '(result, w1) := func args w in
    match set now1 now2 key result (Some ttl) cache1 with
    | (inl _, cache2) => (inl result, w1, cache2)
    | (inr e, cache2) => (inr e, w1, cache2)
    end in
  match cached_value with
  | Some v => if is_None v then call_and_store else (inl v, w, cache1)
  | None => call_and_store
  end.

End Decorator.

(** Example inputs for the decorator: results are optional numbers
    ([None] is Python's [None]), the digest of an argument is its decimal
    form, and the decorated function counts its invocations in the world. *)
Definition result_is_None : option nat → bool :=
  λ v, match v with None => true | Some _ => false end.
Definition decimal_key : nat → string := λ n, pretty n.
Definition successor : nat → nat → option nat * nat :=
  λ n w, (Some (S n), S w).

End CacheService.

(** ** Metrics collector: [class MetricsMiddleware] *)

Module MetricsMiddleware.

(** [collections.deque(maxlen=...)]: [append] on a full deque drops the
    element at the left end; a deque of capacity 0 stays empty. *)
Definition deque_append {A : Type} (maxlen : nat) (x : A) (d : list A)
    : list A :=
  if decide (maxlen = 0%nat) then d
  else
    let d1 := d ++ [x] in
    if decide (maxlen < length d1)%nat then tail d1 else d1.

(** The capacity of [self.metrics["response_times"]]. *)
Definition maxlen : nat := 1000.

(** An entry of [self.metrics["endpoints"]]. *)
Module Endpoint.
Record t : Type := mk {
  count : Z;
  avg_response_time : Qc
}.
End Endpoint.

(** [self.metrics] *)
Record t : Type := {
  total_requests : Z;
  total_errors : Z;
  response_times : list Qc;
  status_codes : gmap Z Z;
  endpoints : gmap string Endpoint.t
}.

(** [__init__] *)
Definition init : t :=
  {| total_requests := 0;
     total_errors := 0;
     response_times := [];
     status_codes := ∅;
     endpoints := ∅ |}.

(** What [call_next] raised, as [dispatch] tells it: an exception that
    [except Exception] catches, or one that it does not catch because it
    derives from [BaseException] alone ([asyncio.CancelledError], raised
    in the handler when the enclosing timeout cancels it, [SystemExit],
    [KeyboardInterrupt], [GeneratorExit]). *)
Inductive raised : Type := raised_Exception | raised_BaseException.

#[global] Instance raised_eq_dec : EqDecision raised.
Proof. solve_decision. Defined.

(** One run of [dispatch]: the request path, the two clock reads, and
    what [call_next] did: it returned a response with a status code, or it
    raised (then the second clock read does not happen). *)
Record call : Type := {
  path : string;
  start_time : Qc;
  end_time : Qc;
  result : Z + raised
}.

(** [dispatch], as a transformer of [self.metrics].  The
    [X-Response-Time] header it adds to the response is not modelled.  An
    exception that [except Exception] does not catch leaves [dispatch]
    after the request was counted and before anything else is recorded. *)
Definition dispatch (c : call) (self : t) : t :=
  let total_requests1 := total_requests self + 1 in
  match result c with
  | inl status_code =>
      let duration := (end_time c - start_time c)%Qc in
      let response_times1 :=
        deque_append maxlen duration (response_times self) in
      let status_codes1 :=
        <[status_code := default 0 (status_codes self !! status_code) + 1]>
          (status_codes self) in
      let endpoint_data :=
        default (Endpoint.mk 0 (Q2Qc 0)) (endpoints self !! path c) in
      let n := Endpoint.count endpoint_data + 1 in
      let endpoint_data1 :=
        Endpoint.mk n
          ((Endpoint.avg_response_time endpoint_data * Qc_of_Z (n - 1)
            + duration) / Qc_of_Z n)%Qc in
      {| total_requests := total_requests1;
         total_errors :=
           if decide (400 ≤ status_code) then total_errors self + 1
           else total_errors self;
         response_times := response_times1;
         status_codes := status_codes1;
         endpoints := <[path c := endpoint_data1]> (endpoints self) |}
  | inr e =>
      {| total_requests := total_requests1;
         total_errors :=
           match e with
           | raised_Exception => total_errors self + 1
           | raised_BaseException => total_errors self
           end;
         response_times := response_times self;
         status_codes := status_codes self;
         endpoints := endpoints self |}
  end.

(** Python's [sum]: a left fold from 0. *)
Definition sum (l : list Qc) : Qc := foldl Qcplus (Q2Qc 0) l.

(** The dictionary [get_metrics] returns, without [top_endpoints]. *)
Module Snapshot.
Record t : Type := mk {
  total_requests : Z;
  total_errors : Z;
  error_rate : Qc;
  avg_response_time : Qc;
  status_codes : gmap Z Z
}.
End Snapshot.

(** [get_metrics] *)
Definition get_metrics (self : t) : Snapshot.t :=
  let response_times := response_times self in
  Snapshot.mk
    (total_requests self)
    (total_errors self)
    (if decide (0 < total_requests self)
     then (Qc_of_Z (total_errors self) / Qc_of_Z (total_requests self))%Qc
     else Q2Qc 0)
    (match response_times with
     | [] => Q2Qc 0
     | _ :: _ =>
         (sum response_times
          / Qc_of_Z (Z.of_nat (length response_times)))%Qc
     end)
    (status_codes self).

(** The durations a sequence of calls records, oldest first. *)
Definition recorded (cs : list call) : list Qc :=
  omap (λ c, match result c with
             | inl _ => Some (end_time c - start_time c)%Qc
             | inr _ => None
             end) cs.

(** The arithmetic mean of a non-empty sequence, as the specification
    words it: the sum of the values over their number. *)
Definition arithmetic_mean (l : list Qc) : Qc :=
  (foldr Qcplus (Q2Qc 0) l / Qc_of_Z (Z.of_nat (length l)))%Qc.


(** The metrics after a sequence of calls went through [dispatch]. *)
Definition run (cs : list call) : t :=
  foldl (λ self c, dispatch c self) init cs.

(** A call that counts as an error: [call_next] raised an exception that
    [except Exception] catches, or the status of the response is 400 or
    more. *)
Definition is_error (c : call) : bool :=
  match result c with
  | inl status_code => bool_decide (400 ≤ status_code)
  | inr raised_Exception => true
  | inr raised_BaseException => false
  end.

(** The calls answered with a given status. *)
Definition completed_with (status_code : Z) (cs : list call) : list call :=
  filter (λ c, result c = inl status_code) cs.

(** The durations recorded for one path, oldest first. *)
Definition durations_at (p : string) (cs : list call) : list Qc :=
  recorded (filter (λ c, path c = p) cs).

End MetricsMiddleware.

(** * Properties *)

(** ** Rounding *)

(** On a float that is not negative, [int] is the floor. *)
Lemma py_int_floor (x : Qc) : (0 ≤ x)%Qc → py_int x = floor x.
Proof.
  unfold py_int, floor, Qcle, Qle. destruct x as [[n d] Hc]. cbn.
  change (Qred 0) with (0 # 1)%Q. cbn. intros Hn.
  apply Z.quot_div_nonneg; lia.
Qed.

(** The ceiling of a whole number is the number, that of any other number is
    the floor plus one. *)
Lemma ceil_whole (x : Qc) : x = Qc_of_Z (floor x) → ceil x = floor x.
Proof.
  unfold ceil, floor. intros Hx.
  assert (this x == inject_Z (Qfloor (this x)))%Q as E
    by (rewrite Hx at 1; reflexivity).
  assert (this x <= inject_Z (Qfloor (this x)))%Q as Hle
    by (apply Qle_lteq; by right).
  pose proof (Qlt_le_trans _ _ _ (Qceiling_lt (this x)) Hle) as H1.
  pose proof (Qle_trans _ _ _ (Qfloor_le (this x)) (Qle_ceiling (this x)))
    as H2.
  rewrite <- Zlt_Qlt in H1. rewrite <- Zle_Qle in H2. lia.
Qed.

Lemma ceil_not_whole (x : Qc) :
  x ≠ Qc_of_Z (floor x) → ceil x = floor x + 1.
Proof.
  unfold ceil, floor. intros Hx.
  assert (inject_Z (Qfloor (this x)) < this x)%Q as Hlt.
  { destruct (Qle_lt_or_eq _ _ (Qfloor_le (this x))) as [H|H]; [done|].
    exfalso. apply Hx. apply Qc_is_canon. cbn. by symmetry. }
  pose proof (Qceiling_lt (this x)) as H1.
  pose proof (Qle_ceiling (this x)) as H2.
  pose proof (Qlt_floor (this x)) as H3.
  assert (inject_Z (Qfloor (this x)) < inject_Z (Qceiling (this x)))%Q as H4
    by (eapply Qlt_le_trans; eauto).
  assert (inject_Z (Qceiling (this x) - 1)
          < inject_Z (Qfloor (this x) + 1))%Q as H5
    by (eapply Qlt_trans; eauto).
  rewrite <- Zlt_Qlt in H4, H5. lia.
Qed.

(** ** Circuit breaker *)

Module CircuitBreakerProps.
Import CircuitBreaker.

Section Props.
Context {Exc : Type}.
Implicit Types b : t Exc.

Lemma inv_init thr tmo (exp : Exc → bool) :
  inv thr tmo exp (init thr tmo exp).
Proof. split; cbn; try done. Qed.

Lemma inv_aenter thr tmo (exp : Exc → bool) b now :
  inv thr tmo exp b → inv thr tmo exp (aenter now b).2.
Proof.
  intros [H1 H2 H3 H4 H5 H6 H7]. unfold aenter.
  destruct (decide (state b = OPEN)) as [Ho|Ho]; [|by split].
  destruct (_ && _); [|by split].
  split; cbn; try done.
  - intros _. apply H5. by rewrite Ho.
  - intros _. apply H6. by rewrite Ho.
Qed.

Lemma inv_aexit thr tmo (exp : Exc → bool) b now exc_type :
  (0 < now)%Qc → inv thr tmo exp b →
  inv thr tmo exp (aexit now exc_type b).2.
Proof.
  intros Hnow [H1 H2 H3 H4 H5 H6 H7]. unfold aexit.
  destruct exc_type as [e|].
  - destruct (expected_exception b e); [|by split].
    cbn. destruct (decide _) as [Hge|Hlt]; cbn in *.
    + split; cbn; try done; try lia. by intros x [= <-].
    + split; cbn; try done; try lia.
      * intros Hs. specialize (H5 Hs). lia.
      * by intros x [= <-].
  - destruct (decide (state b = HALF_OPEN)); [|by split].
    split; cbn; done.
Qed.

Lemma reachable_inv thr tmo (exp : Exc → bool) b :
  reachable thr tmo exp b → inv thr tmo exp b.
Proof.
  induction 1; auto using inv_init, inv_aenter, inv_aexit.
Qed.

(** One guarded call on a closed breaker whose operation raises a
    classified exception: the operation runs, the exception reaches the
    caller, the failure is counted, and the circuit opens when the count
    reaches the threshold. *)
Lemma async_with_closed_failure {W A : Type} b t_enter t_exit
    (body : W → (A + Exc) * W) w e w1 :
  state b = CLOSED → body w = (inr e, w1) →
  expected_exception b e = true →
  ∃ b1, async_with t_enter t_exit body w b = (Raised e, w1, b1)
    ∧ failure_threshold b1 = failure_threshold b
    ∧ expected_exception b1 = expected_exception b
    ∧ failure_count b1 = failure_count b + 1
    ∧ state b1 = (if decide (failure_threshold b ≤ failure_count b + 1)
                  then OPEN else CLOSED).
Proof.
  intros Hs Hbody He. unfold async_with, aenter.
  rewrite decide_False by (rewrite Hs; discriminate).
  rewrite Hbody. unfold aexit. rewrite He. cbn.
  destruct (decide _); cbn; eexists; (split; [reflexivity|]); cbn;
    rewrite ?Hs; done.
Qed.

(** Consecutive failing calls on a closed breaker, no more than are
    needed to reach the threshold: each of them runs, and the circuit is
    open exactly when the count has reached the threshold. *)
Lemma calls_closed_failures {W A : Type} (body : W → (A + Exc) * W)
    times b w :
  (∀ w, ∃ e w1, body w = (inr e, w1) ∧ expected_exception b e = true) →
  state b = CLOSED → times ≠ [] →
  failure_count b + Z.of_nat (length times) ≤ failure_threshold b →
  ∃ os w1 b1, calls times body w b = (os, w1, b1)
    ∧ Forall (λ o, ∃ e, o = Raised e) os
    ∧ failure_count b1 = failure_count b + Z.of_nat (length times)
    ∧ state b1 = (if decide (failure_threshold b ≤ failure_count b1)
                  then OPEN else CLOSED).
Proof.
  revert b w. induction times as [|[t_enter t_exit] times IH];
    intros b w Hbody Hs Hne Hle; [done|].
  destruct (Hbody w) as (e & w1 & Hw & He).
  destruct (async_with_closed_failure b t_enter t_exit body w e w1 Hs Hw He)
    as (b1 & Hcall & Hthr & Hexp & Hcnt & Hst).
  cbn [calls]. rewrite Hcall.
  destruct times as [|tt times].
  - cbn. eexists _, _, _. split; [reflexivity|].
    split; [repeat constructor; by eexists|].
    split; [cbn; lia|]. rewrite Hst, Hcnt. done.
  - cbn [length] in Hle.
    rewrite decide_False in Hst by lia.
    destruct (IH b1 w1) as (os & w2 & b2 & Hcalls & Hos & Hcnt2 & Hst2);
      [by rewrite Hexp|done|done|cbn [length]; lia|].
    rewrite Hcalls. eexists _, _, _. split; [reflexivity|].
    split; [constructor; [by eexists|done]|].
    split; [rewrite Hcnt2, Hcnt; cbn [length]; lia|].
    rewrite Hst2, Hthr. done.
Qed.

(** C2, as the code has it: a success on a closed breaker leaves the
    breaker as it is, CLOSED and with the failure count it had; the
    exception is not suppressed and nothing is reset. *)
Theorem closed_success_keeps_count b now :
  state b = CLOSED →
  aexit now None b = (false, b)
  ∧ state (aexit now None b).2 = CLOSED
  ∧ failure_count (aexit now None b).2 = failure_count b.
Proof.
  intros Hs. unfold aexit.
  rewrite decide_False by (rewrite Hs; discriminate). done.
Qed.


(** C10: [__aexit__] never asks for the exception to be suppressed,
    whatever the outcome and whether or not the exception matches
    [expected_exception]; so when the guarded operation raises, the caller
    of [async with] receives that same exception. *)
Theorem aexit_never_suppresses {W A : Type} b t_enter t_exit
    (body : W → (A + Exc) * W) w e w1 :
  (aenter t_enter b).1 = inl () → body w = (inr e, w1) →
  (∀ now exc_type b0, (aexit now exc_type b0).1 = false)
  ∧ (async_with t_enter t_exit body w b).1.1 = Raised e.
Proof.
  intros Hen Hbody.
  assert (∀ now exc_type (b0 : t Exc), (aexit now exc_type b0).1 = false)
    as Hfalse.
  { intros now exc_type b0. unfold aexit.
    destruct exc_type; repeat case_match; done. }
  split; [done|]. unfold async_with.
  destruct (aenter t_enter b) as [[[]|h] b1]; [|done].
  rewrite Hbody. specialize (Hfalse t_exit (Some e) b1).
  destruct (aexit t_exit (Some e) b1) as [s b2]. cbn in Hfalse.
  by rewrite Hfalse.
Qed.

End Props.

(** C2 as the specification states it fails: after one failure a breaker
    of threshold 5 is CLOSED with a count of 1, and a success leaves the
    count at 1. *)
Lemma closed_success_resets_count_fails :
  reachable 5 60 any_exception one_failure
  ∧ state one_failure = CLOSED
  ∧ failure_count one_failure = 1
  ∧ failure_count (aexit (Qc_of_Z 101) None one_failure).2 = 1
  ∧ ¬ closed_success_resets_count unit.
Proof.
  assert (reachable 5 60 any_exception one_failure) as Hr.
  { apply reach_exit; [apply reach_init|reflexivity]. }
  repeat split; try done.
  intros Hclaim.
  destruct (Hclaim 5 60 any_exception one_failure (Qc_of_Z 101) Hr eq_refl)
    as [_ Hcount].
  discriminate Hcount.
Qed.

(** The breaker after one failure, then a success. *)
Lemma closed_success_keeps_count_witness :
  state one_failure = CLOSED
  ∧ aexit (Qc_of_Z 101) None one_failure = (false, one_failure)
  ∧ state (aexit (Qc_of_Z 101) None one_failure).2 = CLOSED
  ∧ failure_count (aexit (Qc_of_Z 101) None one_failure).2
    = failure_count one_failure.
Proof.
  split; [reflexivity|].
  apply (closed_success_keeps_count one_failure (Qc_of_Z 101)).
  reflexivity.
Defined.

(** The example breaker is a state reached from [__init__]. *)
Lemma open_breaker_reachable : reachable 2 60 any_exception open_breaker.
Proof.
  assert (open_breaker
          = (aexit (Qc_of_Z 4) (Some ())
               (aexit (Qc_of_Z 2) (Some ())
                  (init 2 60 any_exception)).2).2) as -> by reflexivity.
  repeat (apply reach_exit; [|reflexivity]). apply reach_init.
Qed.


(** An exception outside the configured class still reaches the caller. *)
Lemma aexit_never_suppresses_witness :
  (aenter (Qc_of_Z 1) (init 5 60 (λ _ : bool, false))).1 = inl ()
  ∧ (λ w : nat, (inr true : unit + bool, S w)) 0%nat = (inr true, 1%nat)
  ∧ (∀ now exc_type (b0 : t bool), (aexit now exc_type b0).1 = false)
  ∧ (async_with (Qc_of_Z 1) (Qc_of_Z 2)
       (λ w : nat, (inr true : unit + bool, S w)) 0%nat
       (init 5 60 (λ _ : bool, false))).1.1 = Raised true.
Proof.
  split; [reflexivity|]. split; [reflexivity|].
  apply (aexit_never_suppresses (init 5 60 (λ _ : bool, false))
           (Qc_of_Z 1) (Qc_of_Z 2)
           (λ w : nat, (inr true : unit + bool, S w)) 0%nat true 1%nat);
    reflexivity.
Defined.

End CircuitBreakerProps.

(** ** Rate limiter *)

Module RateLimitProps.
Import RateLimitMiddleware.

(** The head of a purged deque is inside the window. *)
Lemma purge_head bound client_queue oldest rest :
  purge bound client_queue = oldest :: rest → (bound ≤ oldest)%Qc.
Proof.
  induction client_queue as [|x q IH]; cbn; [done|].
  destruct (decide (x < bound)%Qc) as [Hlt|Hge]; [done|].
  intros [= <- <-]. by apply Qcnot_lt_le.
Qed.

Lemma limit_settings self self1 path :
  settings self = settings self1 →
  _get_limit_for_endpoint self path = _get_limit_for_endpoint self1 path.
Proof. unfold _get_limit_for_endpoint. by intros ->. Qed.

(** [dispatch_in_flight] with rate limiting on, in terms of the purged
    deque and of what the handler returns. *)
Lemma dispatch_in_flight_enabled now request (call_next : in_flight) self :
  RATE_LIMIT_ENABLED (settings self) = true →
  let max_requests := max_requests_for self request in
  let window_seconds := window_seconds_for self request in
  let q := purged_window now request self in
  let put q1 := {| settings := settings self;
                   client_requests :=
                     <[client_ip request := q1]> (client_requests self) |} in
  let served :=
    call_next request
      (<[client_ip request := q ++ [now]]> (client_requests self)) in
  dispatch_in_flight now request call_next self =
    if decide (max_requests ≤ Z.of_nat (length q)) then
      match q with
      | [] => (inr IndexError, put q)
      | oldest_request :: _ =>
          let retry_after :=
            py_int (oldest_request + Qc_of_Z window_seconds - now) + 1 in
          (inl (JSONResponse HTTP_429_TOO_MANY_REQUESTS
                  [("error", JStr "rate_limit_exceeded");
                   ("message",
                    JStr ("Too many requests. Max " +:+ str max_requests
                          +:+ " requests per " +:+ str window_seconds
                          +:+ " seconds"));
                   ("retry_after_seconds", JInt retry_after)]
                  {[ "Retry-After" := str retry_after ]}), put q)
      end
    else
      (inl (set_header "X-RateLimit-Reset"
              (str (py_int (now + Qc_of_Z window_seconds)))
              (set_header "X-RateLimit-Remaining"
                 (str (Z.max 0
                         (max_requests
                          - Z.of_nat
                              (length (default []
                                         (served.2 !! client_ip request))))))
                 (set_header "X-RateLimit-Limit" (str max_requests)
                    served.1))),
       {| settings := settings self; client_requests := served.2 |}).
Proof.
  intros Hon. cbv zeta.
  unfold dispatch_in_flight, purged_window, max_requests_for,
    window_seconds_for, client_ip.
  rewrite Hon. cbn [negb].
  destruct (_get_limit_for_endpoint self (path request))
    as [max_requests window_seconds]. cbn [fst snd].
  set (ip := default "unknown" (client request)).
  assert (default [] ((match client_requests self !! ip with
                       | Some _ => client_requests self
                       | None => <[ip := []]> (client_requests self)
                       end) !! ip)
          = default [] (client_requests self !! ip)) as ->.
  { destruct (client_requests self !! ip) eqn:E; [by rewrite E|].
    by rewrite lookup_insert_eq. }
  assert (∀ q1 q2 : list Qc,
            <[ip := q1]> (<[ip := q2]>
               (match client_requests self !! ip with
                | Some _ => client_requests self
                | None => <[ip := []]> (client_requests self)
                end))
            = <[ip := q1]> (client_requests self)) as Hput.
  { intros q1 q2. rewrite insert_insert_eq.
    destruct (client_requests self !! ip); [done|].
    by rewrite insert_insert_eq. }
  assert (∀ q1 : list Qc,
            <[ip := q1]>
               (match client_requests self !! ip with
                | Some _ => client_requests self
                | None => <[ip := []]> (client_requests self)
                end)
            = <[ip := q1]> (client_requests self)) as Hput1.
  { intros q1. destruct (client_requests self !! ip); [done|].
    by rewrite insert_insert_eq. }
  rewrite Hput, Hput1.
  destruct (decide _); [done|].
  by destruct (call_next request _).
Qed.

(** [dispatch] with rate limiting on, in terms of the purged deque. *)
Lemma dispatch_enabled now request call_next self :
  RATE_LIMIT_ENABLED (settings self) = true →
  let max_requests := max_requests_for self request in
  let window_seconds := window_seconds_for self request in
  let q := purged_window now request self in
  let put q1 := {| settings := settings self;
                   client_requests :=
                     <[client_ip request := q1]> (client_requests self) |} in
  dispatch now request call_next self =
    if decide (max_requests ≤ Z.of_nat (length q)) then
      match q with
      | [] => (inr IndexError, put q)
      | oldest_request :: _ =>
          let retry_after :=
            py_int (oldest_request + Qc_of_Z window_seconds - now) + 1 in
          (inl (JSONResponse HTTP_429_TOO_MANY_REQUESTS
                  [("error", JStr "rate_limit_exceeded");
                   ("message",
                    JStr ("Too many requests. Max " +:+ str max_requests
                          +:+ " requests per " +:+ str window_seconds
                          +:+ " seconds"));
                   ("retry_after_seconds", JInt retry_after)]
                  {[ "Retry-After" := str retry_after ]}), put q)
      end
    else
      (inl (set_header "X-RateLimit-Reset"
              (str (py_int (now + Qc_of_Z window_seconds)))
              (set_header "X-RateLimit-Remaining"
                 (str (Z.max 0 (max_requests
                                - Z.of_nat (length (q ++ [now])))))
                 (set_header "X-RateLimit-Limit" (str max_requests)
                    (call_next request)))),
       put (q ++ [now])).
Proof.
  intros Hon. cbv zeta. unfold dispatch.
  rewrite (dispatch_in_flight_enabled _ _ _ _ Hon). cbv zeta.
  unfold alone. cbn [fst snd]. by rewrite lookup_insert_eq.
Qed.

(** [dispatch] never changes the settings, and changes the deques at
    the key of the requesting client only. *)
Lemma dispatch_frame now request call_next self ip :
  settings (dispatch now request call_next self).2 = settings self
  ∧ (client_ip request ≠ ip →
     client_requests (dispatch now request call_next self).2 !! ip
     = client_requests self !! ip).
Proof.
  destruct (RATE_LIMIT_ENABLED (settings self)) eqn:Hon.
  - rewrite (dispatch_enabled _ _ _ _ Hon). cbv zeta.
    repeat case_match; cbn; (split; [done|]); intros Hne;
      by rewrite lookup_insert_ne.
  - unfold dispatch, dispatch_in_flight, alone. rewrite Hon. done.
Qed.

(** What [dispatch] answers and what it leaves in the deque of the
    requesting client depend on the settings and on that deque only. *)
Lemma dispatch_local now request call_next self self1 :
  settings self = settings self1 →
  client_requests self !! client_ip request
  = client_requests self1 !! client_ip request →
  (dispatch now request call_next self).1
  = (dispatch now request call_next self1).1
  ∧ client_requests (dispatch now request call_next self).2
      !! client_ip request
    = client_requests (dispatch now request call_next self1).2
      !! client_ip request.
Proof.
  intros Hset Hq.
  destruct (RATE_LIMIT_ENABLED (settings self)) eqn:Hon.
  - assert (RATE_LIMIT_ENABLED (settings self1) = true) as Hon1
      by by rewrite <- Hset.
    rewrite (dispatch_enabled _ _ _ self Hon).
    rewrite (dispatch_enabled _ _ _ self1 Hon1). cbv zeta.
    unfold purged_window, max_requests_for, window_seconds_for.
    rewrite <- (limit_settings self self1 _ Hset), <- Hq.
    repeat case_match; cbn; by rewrite !lookup_insert_eq.
  - unfold dispatch, dispatch_in_flight, alone.
    rewrite <- Hset, Hon. done.
Qed.

(** C1, as the code has it: there is one window per client, whatever the
    endpoint class (the class only selects the quota and the length of the
    window).  Under any path, a request that is let through records its
    timestamp in the window of its client and a request that is rejected
    leaves that window as the purge left it; in both cases the request
    leaves the windows of all other clients, and the answers they get
    afterwards, as they were. *)
Theorem windows_per_client now request call_next self ip :
  RATE_LIMIT_ENABLED (settings self) = true →
  client_ip request ≠ ip →
  let self1 := (dispatch now request call_next self).2 in
  let q := purged_window now request self in
  client_requests self1 !! client_ip request
  = Some (if decide (max_requests_for self request ≤ Z.of_nat (length q))
          then q else q ++ [now])
  ∧ client_requests self1 !! ip = client_requests self !! ip
  ∧ ∀ now1 request1 call_next1,
      client_ip request1 = ip →
      (dispatch now1 request1 call_next1 self1).1
      = (dispatch now1 request1 call_next1 self).1
      ∧ client_requests (dispatch now1 request1 call_next1 self1).2 !! ip
        = client_requests (dispatch now1 request1 call_next1 self).2 !! ip.
Proof.
  intros Hon Hne. cbv zeta.
  destruct (dispatch_frame now request call_next self ip) as [Hset Hq].
  split; [|split].
  - rewrite (dispatch_enabled _ _ _ _ Hon). cbv zeta.
    repeat case_match; cbn; by rewrite lookup_insert_eq.
  - by apply Hq.
  - intros now1 request1 call_next1 <-.
    apply dispatch_local; [done|by apply Hq].
Qed.

(** C4, as the code has it: with rate limiting on, the response of a
    request that is let through carries the limit, what remains of it and
    the reset time, where the remainder is [max(0, max_requests - count)]
    for the count of the client's window when the handler has returned:
    the window after the request was recorded, changed by whatever the
    other requests of the client in flight did to it meanwhile, and so the
    count after recording when the request was handled alone.  The
    rejection carries the Retry-After header and none of the three, with
    [retry_after_seconds] in its body; with rate limiting off the response
    of the handler is returned as it is. *)
Theorem metadata_on_admission now request (call_next : in_flight) self :
  let max_requests := max_requests_for self request in
  let window_seconds := window_seconds_for self request in
  let q := purged_window now request self in
  let served :=
    call_next request
      (<[client_ip request := q ++ [now]]> (client_requests self)) in
  (RATE_LIMIT_ENABLED (settings self) = false →
     dispatch_in_flight now request call_next self
     = (inl (call_next request (client_requests self)).1,
        {| settings := settings self;
           client_requests :=
             (call_next request (client_requests self)).2 |}))
  ∧ (RATE_LIMIT_ENABLED (settings self) = true →
     (Z.of_nat (length q) < max_requests →
        ∃ r self1,
          dispatch_in_flight now request call_next self = (inl r, self1)
          ∧ client_requests self1 = served.2
          ∧ status_code r = status_code served.1
          ∧ content r = content served.1
          ∧ headers r !! "X-RateLimit-Limit" = Some (str max_requests)
          ∧ headers r !! "X-RateLimit-Remaining"
            = Some (str (Z.max 0
                           (max_requests
                            - Z.of_nat
                                (length (default []
                                           (served.2
                                              !! client_ip request))))))
          ∧ headers r !! "X-RateLimit-Reset"
            = Some (str (py_int (now + Qc_of_Z window_seconds)))
          ∧ (served.2 !! client_ip request = Some (q ++ [now]) →
               headers r !! "X-RateLimit-Remaining"
               = Some (str (Z.max 0
                              (max_requests
                               - Z.of_nat (length (q ++ [now])))))))
     ∧ (∀ oldest_request rest,
          q = oldest_request :: rest →
          max_requests ≤ Z.of_nat (length q) →
          let retry_after :=
            py_int (wait now request self oldest_request) + 1 in
          ∃ r self1,
            dispatch_in_flight now request call_next self = (inl r, self1)
            ∧ client_requests self1 !! client_ip request = Some q
            ∧ status_code r = HTTP_429_TOO_MANY_REQUESTS
            ∧ headers r = {[ "Retry-After" := str retry_after ]}
            ∧ content r
              = [("error", JStr "rate_limit_exceeded");
                 ("message",
                  JStr ("Too many requests. Max " +:+ str max_requests
                        +:+ " requests per " +:+ str window_seconds
                        +:+ " seconds"));
                 ("retry_after_seconds", JInt retry_after)])).
Proof.
  cbv zeta. split.
  - intros Hoff. unfold dispatch_in_flight. rewrite Hoff. cbn.
    by destruct (call_next request (client_requests self)).
  - intros Hon. rewrite (dispatch_in_flight_enabled _ _ _ _ Hon).
    cbv zeta. split.
    + intros Hlt. rewrite decide_False by lia.
      eexists _, _. split; [reflexivity|]. cbn.
      do 3 (split; [done|]).
      assert (∀ v : string,
                (<["X-RateLimit-Reset" := v]>
                   (<["X-RateLimit-Remaining" :=
                        str (Z.max 0
                               (max_requests_for self request
                                - Z.of_nat
                                    (length
                                       (default []
                                          ((call_next request
                                              (<[client_ip request :=
                                                   purged_window now request
                                                     self ++ [now]]>
                                                 (client_requests self))).2
                                             !! client_ip request)))))]>
                      (<["X-RateLimit-Limit" :=
                           str (max_requests_for self request)]>
                         (headers
                            (call_next request
                               (<[client_ip request :=
                                    purged_window now request self
                                    ++ [now]]>
                                  (client_requests self))).1))))
                !! "X-RateLimit-Remaining"
                = Some (str (Z.max 0
                               (max_requests_for self request
                                - Z.of_nat
                                    (length
                                       (default []
                                          ((call_next request
                                              (<[client_ip request :=
                                                   purged_window now request
                                                     self ++ [now]]>
                                                 (client_requests self))).2
                                             !! client_ip request)))))))
        as Hremaining.
      { intros v. rewrite lookup_insert_ne by done.
        by rewrite lookup_insert_eq. }
      split; [|split; [|split]].
      * rewrite lookup_insert_ne by done. rewrite lookup_insert_ne by done.
        by rewrite lookup_insert_eq.
      * apply Hremaining.
      * by rewrite lookup_insert_eq.
      * intros Halone. rewrite Hremaining, Halone. done.
    + intros oldest_request rest Hq Hge. rewrite decide_True by done.
      rewrite Hq. eexists _, _. split; [reflexivity|]. cbn.
      rewrite lookup_insert_eq. done.
Qed.

(** C6, as the code has it: on rejection the hint is
    [int(oldest + window - now) + 1].  The time left is never negative
    after the purge, so this is its floor plus one: its ceiling when the
    time left is not a whole number of seconds, and one more than its
    ceiling when it is. *)
Theorem retry_after_floor_plus_one now request call_next self
    oldest_request rest :
  RATE_LIMIT_ENABLED (settings self) = true →
  purged_window now request self = oldest_request :: rest →
  max_requests_for self request
    ≤ Z.of_nat (length (oldest_request :: rest)) →
  let x := wait now request self oldest_request in
  retry_after_seconds (dispatch now request call_next self).1
  = Some (floor x + 1)
  ∧ (0 ≤ x)%Qc
  ∧ 1 ≤ floor x + 1
  ∧ (x ≠ Qc_of_Z (floor x) → floor x + 1 = ceil x)
  ∧ (x = Qc_of_Z (floor x) → floor x + 1 = ceil x + 1).
Proof.
  intros Hon Hq Hge. cbv zeta.
  assert (0 ≤ wait now request self oldest_request)%Qc as Hpos.
  { apply purge_head in Hq. unfold wait.
    apply (Qcplus_le_mono_r _ _
             (now - Qc_of_Z (window_seconds_for self request))).
    rewrite Qcplus_0_l.
    replace (oldest_request + Qc_of_Z (window_seconds_for self request)
             - now + (now - Qc_of_Z (window_seconds_for self request)))%Qc
      with oldest_request by ring.
    done. }
  split; [|split; [done|split; [|split]]].
  - rewrite (dispatch_enabled _ _ _ _ Hon). cbv zeta.
    rewrite Hq, decide_True by done. cbn.
    fold (wait now request self oldest_request).
    by rewrite py_int_floor.
  - assert (0 ≤ floor (wait now request self oldest_request)); [|lia].
    exact (Qfloor_resp_le _ _ Hpos).
  - intros Hx. by rewrite ceil_not_whole.
  - intros Hx. by rewrite ceil_whole.
Qed.

(** C1 as the specification states it fails under the default settings:
    after four general requests of a client, a fifth general request
    changes the window that an authentication request of the same client
    reads, and turns its admission into a rejection. *)
Lemma endpoint_classes_isolated_fails :
  class_of (path general_request) = General
  ∧ class_of (path auth_request) = Auth
  ∧ client_requests four_requests !! "1.2.3.4"
    = Some (Qc_of_Z <$> [100; 101; 102; 103])
  ∧ client_requests five_requests !! "1.2.3.4"
    = Some (Qc_of_Z <$> [100; 101; 102; 103; 104])
  ∧ rejected (dispatch (Qc_of_Z 105) auth_request ok_handler
                four_requests).1 = false
  ∧ rejected (dispatch (Qc_of_Z 105) auth_request ok_handler
                five_requests).1 = true
  ∧ ¬ endpoint_classes_isolated.
Proof.
  do 6 (split; [by vm_compute|]).
  intros Hclaim.
  destruct (Hclaim four_requests (Qc_of_Z 104) (Qc_of_Z 105)
              general_request auth_request ok_handler)
    as [_ Hsame]; [done|done|done|by vm_compute|].
  vm_compute in Hsame. discriminate Hsame.
Qed.

(** A fifth request of one client, seen from another client. *)
Lemma windows_per_client_witness :
  RATE_LIMIT_ENABLED (settings four_requests) = true
  ∧ client_ip general_request ≠ "5.6.7.8"
  ∧ client_requests five_requests !! "1.2.3.4"
    = Some (Qc_of_Z <$> [100; 101; 102; 103; 104])
  ∧ client_requests five_requests !! "5.6.7.8"
    = client_requests four_requests !! "5.6.7.8"
  ∧ (dispatch (Qc_of_Z 105) other_request ok_handler five_requests).1
    = (dispatch (Qc_of_Z 105) other_request ok_handler four_requests).1.
Proof.
  assert (RATE_LIMIT_ENABLED (settings four_requests) = true) as Hon
    by reflexivity.
  assert (client_ip general_request ≠ "5.6.7.8") as Hne by done.
  destruct (windows_per_client (Qc_of_Z 104) general_request ok_handler
              four_requests "5.6.7.8" Hon Hne) as (H1 & H2 & H3).
  split; [exact Hon|]. split; [exact Hne|].
  split; [vm_compute in H1; vm_compute; exact H1|].
  split; [exact H2|].
  apply (H3 (Qc_of_Z 105) other_request ok_handler). reflexivity.
Defined.

(** C4 as the specification states it fails: the rejection of a sixth
    request has none of the three headers. *)
Lemma metadata_on_every_path_fails :
  ∃ r self1,
    dispatch (Qc_of_Z 130) auth_request ok_handler five_requests
    = (inl r, self1)
    ∧ rejected (inl r) = true
    ∧ headers r = {[ "Retry-After" := "271" ]}
    ∧ headers r !! "X-RateLimit-Limit" = None
    ∧ headers r !! "X-RateLimit-Remaining" = None
    ∧ headers r !! "X-RateLimit-Reset" = None
    ∧ ¬ metadata_on_every_path.
Proof.
  pose (r := JSONResponse HTTP_429_TOO_MANY_REQUESTS
               [("error", JStr "rate_limit_exceeded");
                ("message",
                 JStr "Too many requests. Max 5 requests per 300 seconds");
                ("retry_after_seconds", JInt 271)]
               {[ "Retry-After" := "271" ]}).
  assert (dispatch (Qc_of_Z 130) auth_request ok_handler five_requests
          = (inl r,
             (dispatch (Qc_of_Z 130) auth_request ok_handler
                five_requests).2)) as Hd by by vm_compute.
  exists r, (dispatch (Qc_of_Z 130) auth_request ok_handler five_requests).2.
  split; [exact Hd|].
  do 5 (split; [by vm_compute|]).
  intros Hclaim.
  assert (RATE_LIMIT_ENABLED (settings five_requests) = true) as Hon
    by by vm_compute.
  destruct (Hclaim _ _ _ _ _ _ Hon Hd) as [Hlimit _].
  vm_compute in Hlimit. discriminate Hlimit.
Qed.

(** The headers of a request that is let through, handled alone and
    with a second request of the client recorded meanwhile, and those of a
    rejected request. *)
Lemma metadata_on_admission_witness :
  RATE_LIMIT_ENABLED (settings four_requests) = true
  ∧ (∃ r self1,
       dispatch_in_flight (Qc_of_Z 130) general_request (alone ok_handler)
         four_requests = (inl r, self1)
       ∧ headers r !! "X-RateLimit-Limit" = Some "100"
       ∧ headers r !! "X-RateLimit-Remaining" = Some "95"
       ∧ headers r !! "X-RateLimit-Reset" = Some "190")
  ∧ (∃ r self1,
       dispatch_in_flight (Qc_of_Z 130) general_request busy_handler
         four_requests = (inl r, self1)
       ∧ headers r !! "X-RateLimit-Limit" = Some "100"
       ∧ headers r !! "X-RateLimit-Remaining" = Some "94"
       ∧ headers r !! "X-RateLimit-Reset" = Some "190")
  ∧ (∃ r self1,
       dispatch_in_flight (Qc_of_Z 130) auth_request busy_handler
         five_requests = (inl r, self1)
       ∧ status_code r = 429
       ∧ headers r = {[ "Retry-After" := "271" ]}
       ∧ content r !! 2%nat = Some ("retry_after_seconds", JInt 271)).
Proof.
  assert (RATE_LIMIT_ENABLED (settings four_requests) = true) as Hon
    by reflexivity.
  split; [exact Hon|]. split; [|split].
  - destruct (metadata_on_admission (Qc_of_Z 130) general_request
                (alone ok_handler) four_requests) as [_ Hen].
    destruct (Hen Hon) as [Hadmit _].
    destruct Hadmit as (r & self1 & Hd & _ & _ & _ & H1 & H2 & H3 & _);
      [by vm_compute|].
    exists r, self1. split; [exact Hd|].
    split; [exact H1|]. split; [rewrite H2; by vm_compute|exact H3].
  - destruct (metadata_on_admission (Qc_of_Z 130) general_request
                busy_handler four_requests) as [_ Hen].
    destruct (Hen Hon) as [Hadmit _].
    destruct Hadmit as (r & self1 & Hd & _ & _ & _ & H1 & H2 & H3 & _);
      [by vm_compute|].
    exists r, self1. split; [exact Hd|].
    split; [exact H1|]. split; [rewrite H2; by vm_compute|exact H3].
  - destruct (metadata_on_admission (Qc_of_Z 130) auth_request
                busy_handler five_requests) as [_ Hen].
    destruct (Hen eq_refl) as [_ Hreject].
    destruct (Hreject (Qc_of_Z 100) (Qc_of_Z <$> [101; 102; 103; 104]))
      as (r & self1 & Hd & _ & H1 & H2 & H3);
      [by vm_compute|by vm_compute|].
    exists r, self1. split; [exact Hd|]. split; [exact H1|].
    split; [exact H2|]. rewrite H3. by vm_compute.
Defined.

(** C6 as the specification states it fails: with the oldest timestamp at
    100, a window of 300 seconds and the clock at 130, exactly 270 seconds
    are left; the ceiling is 270 and the code answers 271. *)
Lemma retry_after_is_ceil_fails :
  purged_window (Qc_of_Z 130) auth_request five_requests
  = Qc_of_Z <$> [100; 101; 102; 103; 104]
  ∧ wait (Qc_of_Z 130) auth_request five_requests (Qc_of_Z 100)
    = Qc_of_Z 270
  ∧ ceil (Qc_of_Z 270) = 270
  ∧ retry_after_seconds
      (dispatch (Qc_of_Z 130) auth_request ok_handler five_requests).1
    = Some 271
  ∧ ¬ retry_after_is_ceil.
Proof.
  split; [by vm_compute|].
  split; [apply Qc_is_canon; by vm_compute|].
  split; [by vm_compute|].
  split; [by vm_compute|].
  intros Hclaim.
  specialize (Hclaim five_requests (Qc_of_Z 130) auth_request ok_handler
                (Qc_of_Z 100) (Qc_of_Z <$> [101; 102; 103; 104])).
  vm_compute in Hclaim.
  specialize (Hclaim eq_refl eq_refl ltac:(discriminate)).
  discriminate Hclaim.
Qed.

(** With 269.5 seconds left the hint is 270, the ceiling. *)
Lemma retry_after_floor_plus_one_witness :
  RATE_LIMIT_ENABLED (settings five_requests) = true
  ∧ purged_window (Q2Qc (261 # 2)) auth_request five_requests
    = Qc_of_Z <$> [100; 101; 102; 103; 104]
  ∧ max_requests_for five_requests auth_request ≤ 5
  ∧ retry_after_seconds
      (dispatch (Q2Qc (261 # 2)) auth_request ok_handler five_requests).1
    = Some 270
  ∧ ceil (wait (Q2Qc (261 # 2)) auth_request five_requests (Qc_of_Z 100))
    = 270.
Proof.
  assert (purged_window (Q2Qc (261 # 2)) auth_request five_requests
          = Qc_of_Z 100 :: (Qc_of_Z <$> [101; 102; 103; 104])) as Hq
    by by vm_compute.
  assert (max_requests_for five_requests auth_request
          ≤ Z.of_nat (length (Qc_of_Z 100
                              :: (Qc_of_Z <$> [101; 102; 103; 104]))))
    as Hge by by vm_compute.
  destruct (retry_after_floor_plus_one (Q2Qc (261 # 2)) auth_request
              ok_handler five_requests _ _ eq_refl Hq Hge)
    as (H1 & _ & _ & H2 & _).
  split; [reflexivity|]. split; [exact Hq|]. split; [exact Hge|].
  split; [exact H1|].
  rewrite <- H2; [by vm_compute|].
  intros Hx. apply (f_equal this) in Hx. vm_compute in Hx.
  discriminate Hx.
Defined.

End RateLimitProps.

(** ** TTL cache *)

Module CacheProps.
Import CacheService.

Section Props.
Context {V : Type}.
Implicit Types self : t V.

(** C7: [get] on an entry whose expiry has passed removes the entry,
    answers [None] and adds one to the misses and one to the evictions,
    and to nothing else; [get] on an entry that has not expired answers
    its value, adds one to the hits of that entry and one to the hits of
    the cache, and changes nothing else. *)
Theorem get_expired_or_hit now key self entry :
  _cache self !! key = Some entry →
  (is_expired now entry = true →
     (get now key self).1 = None
     ∧ _cache (get now key self).2 = base.delete key (_cache self)
     ∧ _cache (get now key self).2 !! key = None
     ∧ _stats (get now key self).2
       = Stats.mk (Stats.hits (_stats self))
                  (Stats.misses (_stats self) + 1)
                  (Stats.sets (_stats self))
                  (Stats.deletes (_stats self))
                  (Stats.evictions (_stats self) + 1))
  ∧ (is_expired now entry = false →
       (get now key self).1 = Some (value entry)
       ∧ _cache (get now key self).2 !! key
         = Some {| value := value entry;
                   expires_at := expires_at entry;
                   created_at := created_at entry;
                   hits := hits entry + 1 |}
       ∧ (∀ key1, key1 ≠ key →
            _cache (get now key self).2 !! key1 = _cache self !! key1)
       ∧ _stats (get now key self).2
         = Stats.mk (Stats.hits (_stats self) + 1)
                    (Stats.misses (_stats self))
                    (Stats.sets (_stats self))
                    (Stats.deletes (_stats self))
                    (Stats.evictions (_stats self))).
Proof.
  intros Hentry. unfold get. rewrite Hentry. split; intros ->; cbn.
  - split; [done|]. split; [done|]. split; [|done].
    apply lookup_delete_eq.
  - split; [done|]. split; [apply lookup_insert_eq|]. split; [|done].
    intros key1 Hne. by apply lookup_insert_ne.
Qed.

(** C9: [exists] answers true exactly for a key that is present with
    an entry that has not expired, and it returns the cache as it found
    it: the entries with their hit counters and the statistics. *)
Theorem exists_pure now key self :
  (exists_ now key self).2 = self
  ∧ ((exists_ now key self).1 = true
     ↔ ∃ entry, _cache self !! key = Some entry
                ∧ is_expired now entry = false).
Proof.
  unfold exists_. destruct (_cache self !! key) as [entry|].
  - destruct (is_expired now entry) eqn:He; cbn.
    + split; [done|]. split; [done|].
      intros (entry1 & [= <-] & He1). congruence.
    + split; [done|]. split; [|done]. intros _. by exists entry.
  - split; [done|]. split; [done|]. by intros (entry1 & ? & _).
Qed.

(** C5, as the code has it: [get_keys_by_pattern] returns, once each,
    exactly the keys that are in the map and begin with the prefix,
    whether their entries have expired or not. *)
Theorem keys_by_prefix self pattern :
  NoDup (get_keys_by_pattern pattern self)
  ∧ ∀ key, key ∈ get_keys_by_pattern pattern self
           ↔ is_Some (_cache self !! key)
             ∧ String.prefix pattern key = true.
Proof.
  unfold get_keys_by_pattern. split.
  - apply NoDup_filter, NoDup_fst_map_to_list.
  - intros key. rewrite list_elem_of_filter, list_elem_of_fmap.
    split.
    + intros [Hp ([k entry] & -> & Hin)].
      apply elem_of_map_to_list in Hin. split; [by eexists|done].
    + intros [[entry Hentry] Hp]. split; [done|].
      exists (key, entry). split; [done|].
      by apply elem_of_map_to_list.
Qed.

End Props.

(** C5 as the specification states it fails: two seconds after it was
    stored for one second, "user:1" has expired ([exists] answers false)
    and [get_keys_by_pattern] still lists it. *)
Lemma keys_exclude_expired_fails :
  (∃ entry, _cache two_users !! "user:1" = Some entry
            ∧ is_expired two_seconds entry = true)
  ∧ (exists_ two_seconds "user:1" two_users).1 = false
  ∧ get_keys_by_pattern "user:" two_users = ["user:1"; "user:2"]
  ∧ ¬ keys_exclude_expired.
Proof.
  split; [eexists; split; by vm_compute|].
  split; [by vm_compute|].
  assert (get_keys_by_pattern "user:" two_users = ["user:1"; "user:2"])
    as Hkeys by by vm_compute.
  split; [exact Hkeys|].
  intros Hclaim.
  destruct (proj1 (Hclaim two_seconds two_users "user:" "user:1"))
    as (entry & Hentry & Hexp & _).
  { rewrite Hkeys. apply list_elem_of_here. }
  vm_compute in Hentry. injection Hentry as <-.
  vm_compute in Hexp. discriminate Hexp.
Qed.

(** [get] on the expired and on the live entry of the example cache. *)
Lemma get_expired_or_hit_witness :
  (∃ entry, _cache two_users !! "user:1" = Some entry)
  ∧ (get two_seconds "user:1" two_users).1 = None
  ∧ _cache (get two_seconds "user:1" two_users).2 !! "user:1" = None
  ∧ _stats (get two_seconds "user:1" two_users).2 = Stats.mk 0 1 2 0 1
  ∧ (get two_seconds "user:2" two_users).1 = Some 22%nat
  ∧ hits <$> _cache (get two_seconds "user:2" two_users).2 !! "user:2"
    = Some 1
  ∧ _stats (get two_seconds "user:2" two_users).2 = Stats.mk 1 0 2 0 0.
Proof.
  pose (entry1 := {| value := 11%nat; expires_at := 1000000;
                     created_at := 0; hits := 0 |}).
  pose (entry2 := {| value := 22%nat; expires_at := 3600000000;
                     created_at := 0; hits := 0 |}).
  assert (_cache two_users !! "user:1" = Some entry1) as H1
    by by vm_compute.
  assert (_cache two_users !! "user:2" = Some entry2) as H2
    by by vm_compute.
  destruct (get_expired_or_hit two_seconds "user:1" two_users entry1 H1)
    as [Hexpired _].
  destruct (Hexpired eq_refl) as (Ha & _ & Hb & Hc).
  destruct (get_expired_or_hit two_seconds "user:2" two_users entry2 H2)
    as [_ Hhit].
  destruct (Hhit eq_refl) as (Hd & He & _ & Hf).
  split; [by exists entry1|].
  split; [exact Ha|]. split; [exact Hb|]. split; [exact Hc|].
  split; [exact Hd|]. split; [by rewrite He|exact Hf].
Defined.

End CacheProps.

(** ** Metrics collector *)

Module MetricsProps.
Import MetricsMiddleware.

(** A bounded deque that holds the last [n] elements of a history still
    does after an append. *)
Lemma deque_append_drop {A : Type} (n : nat) (x : A) (history : list A) :
  (0 < n)%nat →
  deque_append n x (drop (length history - n) history)
  = drop (length (history ++ [x]) - n) (history ++ [x]).
Proof.
  intros Hn. unfold deque_append. rewrite decide_False by lia.
  rewrite !length_app, length_drop. cbn [length].
  destruct (decide (length history < n)%nat) as [Hlt|Hge].
  - replace (length history - n)%nat with 0%nat by lia.
    replace (length history + 1 - n)%nat with 0%nat by lia.
    rewrite !drop_0. rewrite decide_False by lia. done.
  - rewrite decide_True by lia.
    replace (length history + 1 - n)%nat
      with (S (length history - n)) by lia.
    rewrite (drop_app_le history [x] (S (length history - n))) by lia.
    destruct (drop (length history - n) history) as [|y rest] eqn:E.
    + apply (f_equal length) in E. rewrite length_drop in E. cbn in E. lia.
    + cbn. f_equal.
      rewrite <- (Nat.add_1_r (length history - n)), <- drop_drop, E.
      done.
Qed.

(** Python's left-to-right [sum] is the sum. *)
Lemma sum_foldr (l : list Qc) : sum l = foldr Qcplus (Q2Qc 0) l.
Proof.
  unfold sum.
  assert (∀ a, foldl Qcplus a l = (a + foldr Qcplus (Q2Qc 0) l)%Qc) as H.
  { induction l as [|x l IH]; intros a; cbn.
    - by rewrite Qcplus_0_r.
    - rewrite IH. ring. }
  rewrite H. by rewrite Qcplus_0_l.
Qed.

Lemma recorded_snoc cs c :
  recorded (cs ++ [c])
  = recorded cs ++ match result c with
                   | inl _ => [(end_time c - start_time c)%Qc]
                   | inr _ => []
                   end.
Proof.
  unfold recorded. rewrite omap_app. cbn. by destruct (result c).
Qed.

(** The recent-latency buffer holds the last [maxlen] recorded
    durations, oldest first. *)
Lemma response_times_recent cs :
  response_times (foldl (λ self c, dispatch c self) init cs)
  = drop (length (recorded cs) - maxlen) (recorded cs).
Proof.
  induction cs as [|c cs IH] using rev_ind; [done|].
  rewrite foldl_app, recorded_snoc. cbn [foldl].
  unfold dispatch at 1. destruct (result c) as [status_code|e]; cbn.
  - rewrite IH. apply deque_append_drop. unfold maxlen. lia.
  - by rewrite app_nil_r.
Qed.

(** C8: after any sequence of calls, the buffer holds the last 1000
    recorded durations (all of them when there are fewer), never more than
    1000, and [avg_response_time] is the arithmetic mean of the buffer,
    and 0 when no duration has been recorded. *)
Theorem avg_response_time_is_mean (cs : list call) :
  let self := foldl (λ self c, dispatch c self) init cs in
  response_times self = drop (length (recorded cs) - 1000) (recorded cs)
  ∧ length (response_times self) = (length (recorded cs) `min` 1000)%nat
  ∧ Snapshot.avg_response_time (get_metrics self)
    = match response_times self with
      | [] => Q2Qc 0
      | _ :: _ => arithmetic_mean (response_times self)
      end
  ∧ (recorded cs = [] →
     Snapshot.avg_response_time (get_metrics self) = Q2Qc 0).
Proof.
  cbv zeta. pose proof (response_times_recent cs) as Hbuf.
  unfold maxlen in Hbuf. split; [exact Hbuf|]. split; [|split].
  - rewrite Hbuf, length_drop. lia.
  - unfold get_metrics, arithmetic_mean. cbn.
    destruct (response_times _); [done|]. by rewrite sum_foldr.
  - intros Hnone. unfold get_metrics. cbn. rewrite Hbuf, Hnone. done.
Qed.

End MetricsProps.

(** ** TTL cache: further properties *)

Module CacheMore.
Import CacheService.

Section Props.
Context {V : Type}.
Implicit Types self : t V.

(** X1: when the expiry, [now + ttl] seconds (the default lifetime when
    no [ttl] is given), is a [datetime], [set] returns and the value it
    stored is what [get] returns for as long as the clock has not passed
    the expiry, whatever was stored under the key before; the entry then
    counts its first hit.  Once the clock has passed the expiry, [get]
    returns [None] and the entry is gone.  When the expiry is outside the
    range of [datetime], [set] raises [OverflowError] and neither stores
    nor counts anything. *)
Theorem set_then_get now now1 now2 key (v : V) ttl self :
  let expiry := now + default (_default_ttl self) ttl * 1000000 in
  let r := set now now1 key v ttl self in
  (datetime_min ≤ expiry ≤ datetime_max →
     r.1 = inl ()
     ∧ (now2 ≤ expiry →
          (get now2 key r.2).1 = Some v
          ∧ _cache (get now2 key r.2).2 !! key
            = Some {| value := v; expires_at := expiry; created_at := now1;
                      hits := 1 |})
     ∧ (expiry < now2 →
          (get now2 key r.2).1 = None
          ∧ _cache (get now2 key r.2).2 !! key = None))
  ∧ (¬ (datetime_min ≤ expiry ≤ datetime_max) →
       r = (inr OverflowError, self)).
Proof.
  cbv zeta. unfold set. split; intros Hrange.
  - rewrite decide_True by done. cbn [fst snd]. split; [done|].
    unfold get. cbn. rewrite lookup_insert_eq.
    unfold is_expired. cbn. split; intros Hle.
    + rewrite bool_decide_eq_false_2 by lia. cbn.
      by rewrite lookup_insert_eq.
    + rewrite bool_decide_eq_true_2 by lia. cbn.
      by rewrite lookup_delete_eq.
  - by rewrite decide_False.
Qed.

(** X2: every [get] counts as exactly one hit or one miss: a hit
    exactly when the key holds an entry that has not expired, and then it
    returns the value stored in that entry.  A result other than [None] is
    therefore always a counted hit; the converse fails for an entry whose
    stored value is [None], which is returned as [None] and counted as a
    hit.  [get] leaves the set and delete counters alone, never adds a key,
    and on a key that is not in the map it changes nothing but the miss
    counter. *)
Theorem get_accounting now key self :
  let r := get now key self in
  Stats.hits (_stats r.2) + Stats.misses (_stats r.2)
  = Stats.hits (_stats self) + Stats.misses (_stats self) + 1
  ∧ (Stats.hits (_stats r.2) = Stats.hits (_stats self) + 1
     ↔ ∃ entry, _cache self !! key = Some entry
                ∧ is_expired now entry = false
                ∧ r.1 = Some (value entry))
  ∧ (∀ is_None, is_not_None is_None r.1 = true →
                Stats.hits (_stats r.2) = Stats.hits (_stats self) + 1)
  ∧ Stats.sets (_stats r.2) = Stats.sets (_stats self)
  ∧ Stats.deletes (_stats r.2) = Stats.deletes (_stats self)
  ∧ dom (_cache r.2) ⊆ dom (_cache self)
  ∧ (_cache self !! key = None →
       r.1 = None ∧ _cache r.2 = _cache self
       ∧ Stats.evictions (_stats r.2) = Stats.evictions (_stats self)).
Proof.
  cbv zeta. unfold get.
  destruct (_cache self !! key) as [entry|] eqn:Hentry.
  - destruct (is_expired now entry) eqn:Hexp; cbn.
    + split; [lia|].
      split; [split; [lia|intros (e & [= <-] & He & _); congruence]|].
      split; [done|].
      split; [done|]. split; [done|]. split; [|done].
      apply subseteq_dom, delete_subseteq.
    + split; [lia|].
      split; [split; [intros _; by exists entry|done]|].
      split; [done|].
      split; [done|]. split; [done|]. split; [|done].
      by rewrite dom_insert_lookup_L by by eexists.
  - cbn. split; [lia|].
    split; [split; [lia|by intros (e & ? & _)]|]. done.
Qed.

(** X3: [delete] answers whether the key was in the map, expired or not;
    afterwards the key is absent and every other key is as before; the
    delete counter grows by one exactly when the answer is true, and a
    [delete] of an absent key changes nothing at all. *)
Theorem delete_spec key self :
  let r := delete key self in
  (r.1 = true ↔ is_Some (_cache self !! key))
  ∧ _cache r.2 !! key = None
  ∧ (∀ key1, key1 ≠ key → _cache r.2 !! key1 = _cache self !! key1)
  ∧ Stats.deletes (_stats r.2)
    = Stats.deletes (_stats self) + (if r.1 then 1 else 0)
  ∧ (_cache self !! key = None → r.2 = self)
  ∧ (delete key r.2).1 = false.
Proof.
  cbv zeta. unfold delete.
  destruct (_cache self !! key) as [entry|] eqn:Hentry; cbn.
  - rewrite lookup_delete_eq.
    split; [split; [by eexists|done]|]. split; [done|].
    split; [intros key1 Hne; by rewrite lookup_delete_ne|].
    split; [done|]. split; [done|done].
  - rewrite Hentry.
    split; [split; [done|intros Hs; by apply is_Some_None in Hs]|].
    split; [done|]. split; [done|]. split; [lia|]. done.
Qed.

(** X4: [exists] answers true exactly when a [get] at the same time
    would count a hit.  Whenever [get] returns something other than [None],
    [exists] is true; and when [exists] is true, [get] returns the value
    stored in the entry, which is [None] exactly when that stored value is
    [None]: then [exists] is true although [get] returns [None]. *)
Theorem exists_agrees_with_get now key self :
  ((exists_ now key self).1 = true
   ↔ Stats.hits (_stats (get now key self).2)
     = Stats.hits (_stats self) + 1)
  ∧ ∀ is_None,
      (is_not_None is_None (get now key self).1 = true →
       (exists_ now key self).1 = true)
      ∧ ((exists_ now key self).1 = true →
         ∃ entry, _cache self !! key = Some entry
                  ∧ (get now key self).1 = Some (value entry)
                  ∧ is_not_None is_None (get now key self).1
                    = negb (is_None (value entry))).
Proof.
  unfold exists_, get. destruct (_cache self !! key) as [entry|].
  - destruct (is_expired now entry); cbn.
    + split; [split; [done|lia]|]. intros is_None. split; done.
    + split; [done|]. intros is_None. split; [done|].
      intros _. by exists entry.
  - cbn. split; [split; [done|lia]|]. intros is_None. split; done.
Qed.

(** Removing, one after the other, keys that are all in the map and all
    different, with a step that counts each removal. *)
Lemma remove_keys (f : t V → string → t V) (bump : Stats.t → Stats.t)
    (ks : list string) self :
  (∀ self key, is_Some (_cache self !! key) →
     f self key = with_stats (bump (_stats self))
                    (with_cache (base.delete key (_cache self)) self)) →
  NoDup ks →
  (∀ k, k ∈ ks → is_Some (_cache self !! k)) →
  (∀ k, _cache (foldl f self ks) !! k
        = if decide (k ∈ ks) then None else _cache self !! k)
  ∧ _stats (foldl f self ks) = Nat.iter (length ks) bump (_stats self)
  ∧ _default_ttl (foldl f self ks) = _default_ttl self
  ∧ (size (_cache (foldl f self ks)) + length ks = size (_cache self))%nat.
Proof.
  intros Hf. revert self.
  induction ks as [|k0 ks IH]; intros self Hnodup Hin; cbn [foldl length].
  - split; [|done]. intros k. rewrite decide_False; [done|].
    apply not_elem_of_nil.
  - apply NoDup_cons in Hnodup as [Hk0 Hnodup].
    rewrite (Hf self k0) by (apply Hin; left).
    destruct (IH (with_stats (bump (_stats self))
                    (with_cache (base.delete k0 (_cache self)) self)))
      as (Hlook & Hstats & Httl & Hsize); [done| |].
    { intros k Hk. cbn. rewrite lookup_delete_ne by (intros ->; done).
      apply Hin. by right. }
    split; [|split; [|split]].
    + intros k. rewrite Hlook. cbn.
      destruct (decide (k = k0)) as [->|Hne].
      * rewrite decide_False by done. rewrite lookup_delete_eq.
        rewrite decide_True; [done|left].
      * rewrite lookup_delete_ne by done.
        destruct (decide (k ∈ ks)) as [Hk|Hk].
        -- rewrite decide_True; [done|by right].
        -- rewrite decide_False; [done|].
           intros [->|?]%elem_of_cons; done.
    + rewrite Hstats.
      exact (eq_sym (Nat.iter_succ_r (length ks) bump (_stats self))).
    + by rewrite Httl.
    + cbn [_cache with_stats with_cache] in Hsize.
      assert (is_Some (_cache self !! k0)) as Hs by (apply Hin; left).
      pose proof (map_size_delete_Some k0 (_cache self) Hs) as Hd.
      destruct Hs as [e He].
      assert (size (_cache self) ≠ 0%nat) as Hnz.
      { intros Hz%map_size_empty_inv. rewrite Hz in He.
        by rewrite lookup_empty in He. }
      lia.
Qed.

Lemma iter_bump_deletes (n : nat) (s : Stats.t) :
  Nat.iter n bump_deletes s
  = Stats.mk (Stats.hits s) (Stats.misses s) (Stats.sets s)
             (Stats.deletes s + Z.of_nat n) (Stats.evictions s).
Proof.
  induction n as [|n IH].
  - cbn. destruct s; cbn. f_equal. lia.
  - rewrite Nat.iter_succ, IH. unfold bump_deletes. cbn. f_equal. lia.
Qed.

Lemma iter_bump_evictions (n : nat) (s : Stats.t) :
  Nat.iter n bump_evictions s
  = Stats.mk (Stats.hits s) (Stats.misses s) (Stats.sets s)
             (Stats.deletes s) (Stats.evictions s + Z.of_nat n).
Proof.
  induction n as [|n IH].
  - cbn. destruct s; cbn. f_equal. lia.
  - rewrite Nat.iter_succ, IH. unfold bump_evictions. cbn. f_equal. lia.
Qed.

(** The keys [get_keys_by_pattern] lists: each once, the keys of the map
    with the prefix. *)
Lemma keys_by_pattern_elem pattern self :
  NoDup (get_keys_by_pattern pattern self)
  ∧ ∀ key, key ∈ get_keys_by_pattern pattern self
           ↔ is_Some (_cache self !! key)
             ∧ String.prefix pattern key = true.
Proof.
  unfold get_keys_by_pattern. split.
  - apply NoDup_filter, NoDup_fst_map_to_list.
  - intros key. rewrite list_elem_of_filter, list_elem_of_fmap. split.
    + intros [Hp ([k entry] & -> & Hin%elem_of_map_to_list)].
      split; [by eexists|done].
    + intros [[entry Hentry] Hp]. split; [done|].
      exists (key, entry). split; [done|]. by apply elem_of_map_to_list.
Qed.

(** X5: [invalidate_pattern] removes exactly the keys that begin with the
    prefix, expired or not, and leaves every other entry as it was; the
    number it returns is the number of entries removed, and the delete
    counter grows by that number while the other counters keep their
    values. *)
Theorem invalidate_pattern_spec pattern self :
  let r := invalidate_pattern pattern self in
  (∀ key, _cache r.2 !! key
          = if String.prefix pattern key then None else _cache self !! key)
  ∧ r.1 = Z.of_nat (size (_cache self)) - Z.of_nat (size (_cache r.2))
  ∧ 0 ≤ r.1
  ∧ _stats r.2
    = Stats.mk (Stats.hits (_stats self)) (Stats.misses (_stats self))
               (Stats.sets (_stats self))
               (Stats.deletes (_stats self) + r.1)
               (Stats.evictions (_stats self)).
Proof.
  cbv zeta. unfold invalidate_pattern. cbn [fst snd].
  destruct (keys_by_pattern_elem pattern self) as [Hnodup Hkeys].
  destruct (remove_keys (λ self key, (delete key self).2) bump_deletes
              (get_keys_by_pattern pattern self) self)
    as (Hlook & Hstats & _ & Hsize); [|done|by intros k [? _]%Hkeys|].
  { intros self1 key [e He]. unfold delete. by rewrite He. }
  split; [|split; [lia|split; [lia|]]].
  - intros key. rewrite Hlook.
    destruct (String.prefix pattern key) eqn:Hp.
    + destruct (_cache self !! key) as [e|] eqn:He.
      * rewrite decide_True; [done|]. apply Hkeys. split; [by eexists|done].
      * by destruct (decide _).
    + rewrite decide_False; [done|]. intros [_ ?]%Hkeys. congruence.
  - rewrite Hstats. apply iter_bump_deletes.
Qed.

(** X6: the sweep [_cleanup_expired] removes exactly the entries that
    have expired and leaves the others untouched; the eviction counter
    grows by the number of entries removed and the other counters keep
    their values. *)
Theorem cleanup_expired_spec now self :
  let self1 := _cleanup_expired now self in
  (∀ key, _cache self1 !! key
          = match _cache self !! key with
            | Some entry => if is_expired now entry then None else Some entry
            | None => None
            end)
  ∧ (size (_cache self1) ≤ size (_cache self))%nat
  ∧ _stats self1
    = Stats.mk (Stats.hits (_stats self)) (Stats.misses (_stats self))
               (Stats.sets (_stats self)) (Stats.deletes (_stats self))
               (Stats.evictions (_stats self)
                + (Z.of_nat (size (_cache self))
                   - Z.of_nat (size (_cache self1)))).
Proof.
  cbv zeta. unfold _cleanup_expired.
  set (expired := filter (λ kv : string * CacheEntry V,
                            is_expired now kv.2 = true)
                         (map_to_list (_cache self))).
  assert (∀ k, k ∈ expired.*1
               ↔ ∃ e, _cache self !! k = Some e ∧ is_expired now e = true)
    as Hkeys.
  { intros k. rewrite list_elem_of_fmap. split.
    - intros ([k1 e] & -> & [He Hin%elem_of_map_to_list]%list_elem_of_filter).
      by exists e.
    - intros (e & Hk & He). exists (k, e). split; [done|].
      apply list_elem_of_filter. split; [done|].
      by apply elem_of_map_to_list. }
  assert (NoDup expired.*1) as Hnodup.
  { apply NoDup_fmap_fst.
    - intros k e1 e2 [_ H1%elem_of_map_to_list]%list_elem_of_filter
        [_ H2%elem_of_map_to_list]%list_elem_of_filter. congruence.
    - apply NoDup_filter, NoDup_map_to_list. }
  destruct (remove_keys
              (λ self key, with_stats (bump_evictions (_stats self))
                             (with_cache (base.delete key (_cache self)) self))
              bump_evictions (expired.*1) self)
    as (Hlook & Hstats & _ & Hsize); [done|done| |].
  { intros k (e & Hk & _)%Hkeys. by eexists. }
  split; [|split; [lia|]].
  - intros key. rewrite Hlook.
    destruct (_cache self !! key) as [e|] eqn:He.
    + destruct (is_expired now e) eqn:Hexp.
      * rewrite decide_True; [done|]. apply Hkeys. by exists e.
      * rewrite decide_False; [done|].
        intros (e1 & He1 & Hexp1)%Hkeys. congruence.
    + by destruct (decide _).
  - rewrite Hstats, iter_bump_evictions. f_equal. lia.
Qed.

(** X7: [clear] empties the map and counts nothing: afterwards no
    prefix lists a key, [exists] is false and [get] misses for every key,
    while the statistics are those of before (neither deletes nor evictions
    are counted for the entries thrown away). *)
Theorem clear_spec now pattern key self :
  _stats (clear self) = _stats self
  ∧ get_keys_by_pattern pattern (clear self) = []
  ∧ (exists_ now key (clear self)).1 = false
  ∧ (get now key (clear self)).1 = None
  ∧ Stats.misses (_stats (get now key (clear self)).2)
    = Stats.misses (_stats self) + 1.
Proof.
  unfold clear, get_keys_by_pattern, exists_, get. cbn.
  rewrite map_to_list_empty, lookup_empty. done.
Qed.

End Props.

Section DecoratorProps.
Context {V Args W : Type}.
Context (is_None : V → bool) (generate_cache_key : Args → string).

(** X8: the wrapper of [cache_result] on a key that is not in the cache
    calls the function.  When the expiry of the entry to store is a
    [datetime], it returns the result of the function, and a second call
    with the same arguments before the entry expires returns that result
    without calling the function again, provided the result is not [None];
    a result that is [None] is stored but never served, so the function is
    called again, as it is once the entry has expired.  When the expiry is
    outside the range of [datetime], the function has run and the caller
    gets [OverflowError] in place of its result. *)
Theorem cache_result_memo ttl key_prefix func_name
    (func : Args → W → V * W) now now1 now2 now3 now4 now5 args w
    (cache : t V) :
  _cache cache !! cache_key generate_cache_key key_prefix func_name args
  = None →
  let wrapped := cache_result is_None generate_cache_key ttl key_prefix
                   func_name func in
  let call1 := wrapped now now1 now2 args w cache in
  let call2 := wrapped now3 now4 now5 args call1.1.2 call1.2 in
  call1.1.2 = (func args w).2
  ∧ (¬ (datetime_min ≤ now1 + ttl * 1000000 ≤ datetime_max) →
       call1.1.1 = inr OverflowError)
  ∧ (datetime_min ≤ now1 + ttl * 1000000 ≤ datetime_max →
       call1.1.1 = inl (func args w).1
       ∧ (now3 ≤ now1 + ttl * 1000000 → is_None (func args w).1 = false →
            call2.1 = call1.1
            ∧ Stats.sets (_stats call2.2) = Stats.sets (_stats call1.2))
       ∧ (now3 ≤ now1 + ttl * 1000000 → is_None (func args w).1 = true →
            call2.1.2 = (func args call1.1.2).2
            ∧ (datetime_min ≤ now4 + ttl * 1000000 ≤ datetime_max →
                 call2.1.1 = inl (func args call1.1.2).1))
       ∧ (now1 + ttl * 1000000 < now3 →
            call2.1.2 = (func args call1.1.2).2
            ∧ (datetime_min ≤ now4 + ttl * 1000000 ≤ datetime_max →
                 call2.1.1 = inl (func args call1.1.2).1))).
Proof.
  intros Hmiss. cbv zeta.
  set (key := cache_key generate_cache_key key_prefix func_name args) in *.
  set (cache1 := with_stats (bump_misses (_stats cache)) cache).
  assert (cache_result is_None generate_cache_key ttl key_prefix func_name
            func now now1 now2 args w cache
          = (match (set now1 now2 key (func args w).1 (Some ttl) cache1).1
             with
             | inl _ => inl (func args w).1
             | inr e => inr e
             end, (func args w).2,
             (set now1 now2 key (func args w).1 (Some ttl) cache1).2))
    as ->.
  { unfold cache_result, get. fold key. rewrite Hmiss. fold cache1.
    destruct (func args w) as [result w1]. cbn [fst snd].
    by destruct (set now1 now2 key result (Some ttl) cache1) as [[[]|e] c]. }
  cbn [fst snd]. split; [done|].
  set (entry := {| value := (func args w).1;
                   expires_at := now1 + ttl * 1000000;
                   created_at := now2; hits := 0 |}).
  set (stored := with_stats (bump_sets (_stats cache1))
                   (with_cache (<[key := entry]> (_cache cache1)) cache1)).
  split.
  - intros Hout. unfold set. cbn [default from_option id].
    by rewrite decide_False.
  - intros Hin.
    assert (set now1 now2 key (func args w).1 (Some ttl) cache1
            = (inl (), stored)) as Hset.
    { unfold set. cbn [default from_option id]. by rewrite decide_True. }
    rewrite !Hset. cbn [fst snd]. split; [done|].
    unfold cache_result, get. fold key.
    assert (_cache stored !! key = Some entry) as ->
      by apply lookup_insert_eq.
    unfold is_expired. subst entry. cbn [expires_at value increment_hits].
    split; [|split].
    + intros Hle Hnone. rewrite bool_decide_eq_false_2 by lia.
      by rewrite Hnone.
    + intros Hle Hnone. rewrite bool_decide_eq_false_2 by lia.
      rewrite Hnone.
      destruct (func args (func args w).2) as [result2 w2]. cbn [fst snd].
      split.
      * by destruct (set now4 now5 key result2 (Some ttl) _) as [[[]|e] c].
      * intros Hin4. unfold set. cbn [default from_option id].
        by rewrite decide_True.
    + intros Hlt. rewrite bool_decide_eq_true_2 by lia.
      destruct (func args (func args w).2) as [result2 w2]. cbn [fst snd].
      split.
      * by destruct (set now4 now5 key result2 (Some ttl) _) as [[[]|e] c].
      * intros Hin4. unfold set. cbn [default from_option id].
        by rewrite decide_True.
Qed.

End DecoratorProps.

(** Two calls with the argument 7, one hour of lifetime, ten seconds
    apart: the function runs once. *)
Lemma cache_result_memo_witness :
  _cache (init 300 : t (option nat))
    !! cache_key decimal_key "user" "successor" 7%nat = None
  ∧ datetime_min ≤ 0 + 3600 * 1000000 ≤ datetime_max
  ∧ (cache_result result_is_None decimal_key 3600 "user" "successor"
       successor 0 0 0 7%nat 0%nat (init 300)).1
    = (inl (Some 8%nat), 1%nat)
  ∧ (cache_result result_is_None decimal_key 3600 "user" "successor"
       successor 10000000 10000000 10000000 7%nat 1%nat
       (cache_result result_is_None decimal_key 3600 "user" "successor"
          successor 0 0 0 7%nat 0%nat (init 300)).2).1
    = (inl (Some 8%nat), 1%nat).
Proof.
  assert (_cache (init 300 : t (option nat))
            !! cache_key decimal_key "user" "successor" 7%nat = None)
    as Hmiss by done.
  assert (datetime_min ≤ 0 + 3600 * 1000000 ≤ datetime_max) as Hin
    by (unfold datetime_min, datetime_max; lia).
  destruct (cache_result_memo result_is_None decimal_key 3600 "user"
              "successor" successor 0 0 0 10000000 10000000 10000000
              7%nat 0%nat (init 300) Hmiss) as (H0 & _ & H1).
  destruct (H1 Hin) as (H1a & H2 & _).
  split; [exact Hmiss|]. split; [exact Hin|].
  assert ((cache_result result_is_None decimal_key 3600 "user" "successor"
             successor 0 0 0 7%nat 0%nat (init 300)).1
          = (inl (Some 8%nat), 1%nat)) as Hcall1.
  { apply injective_projections; [exact H1a|exact H0]. }
  split; [exact Hcall1|].
  destruct H2 as [H2 _]; [by vm_compute|done|].
  rewrite Hcall1 in H2 at 2. rewrite Hcall1 in H2 at 1. exact H2.
Defined.

End CacheMore.

(** ** Rate limiter: further properties *)

(** Goals on the order of rationals in lowest terms, as goals on plain
    rationals. *)
Ltac qc_to_q :=
  unfold Qcle, Qclt, Qcminus, Qcplus, Qcopp, Qc_of_Z, Q2Qc in *;
  cbn [this] in *;
  rewrite ?Qred_correct in *;
  change (inject_Z 0) with 0%Q in *.

Module RateLimitMore.
Import RateLimitMiddleware RateLimitProps.

Lemma length_purge bound client_queue :
  (length (purge bound client_queue) ≤ length client_queue)%nat.
Proof.
  induction client_queue as [|x q IH]; cbn; [done|].
  destruct (decide (x < bound)%Qc); cbn; lia.
Qed.

Lemma purge_Forall (P : Qc → Prop) bound client_queue :
  Forall P client_queue → Forall P (purge bound client_queue).
Proof.
  induction 1 as [|x q Hx Hq IH]; cbn; [done|].
  destruct (decide (x < bound)%Qc); [done|by constructor].
Qed.

Lemma purge_ascending bound client_queue :
  ascending client_queue →
  ascending (purge bound client_queue)
  ∧ Forall (λ t, (bound ≤ t)%Qc) (purge bound client_queue).
Proof.
  induction client_queue as [|x q IH]; cbn; [done|].
  intros [Hx Hq]. destruct (decide (x < bound)%Qc) as [Hlt|Hge]; [auto|].
  split; [done|]. apply Qcnot_lt_le in Hge. constructor; [done|].
  eapply Forall_impl; [exact Hx|]. intros t Ht. cbn in Ht.
  by eapply Qcle_trans.
Qed.

Lemma purge_all_old bound client_queue :
  Forall (λ t, (t < bound)%Qc) client_queue → purge bound client_queue = [].
Proof.
  induction 1 as [|x q Hx Hq IH]; cbn; [done|]. by rewrite decide_True.
Qed.

Lemma ascending_snoc client_queue now :
  ascending client_queue → Forall (λ t, (t ≤ now)%Qc) client_queue →
  ascending (client_queue ++ [now]).
Proof.
  induction client_queue as [|x q IH]; cbn; [done|].
  intros [Hx Hq] Hle. apply Forall_cons in Hle as [Hxn Hqn].
  split; [|by apply IH]. apply Forall_app. split; [done|].
  by constructor.
Qed.

(** The deque [dispatch] leaves for the requesting client. *)
Lemma dispatch_window now request call_next self :
  RATE_LIMIT_ENABLED (settings self) = true →
  window_of request (dispatch now request call_next self).2
  = if decide (max_requests_for self request
               ≤ Z.of_nat (length (purged_window now request self)))
    then purged_window now request self
    else purged_window now request self ++ [now].
Proof.
  intros Hon. unfold window_of.
  rewrite (dispatch_enabled _ _ _ _ Hon). cbv zeta.
  repeat case_match; cbn; by rewrite lookup_insert_eq.
Qed.

(** X9: the window of a client stays in the order of the clock and
    inside the interval of the check: if the deque is ascending and holds
    no timestamp later than [now], then after [dispatch] at [now] it is
    ascending and all its timestamps lie between [now - window_seconds]
    and [now]. *)
Theorem window_invariant now request call_next self :
  RATE_LIMIT_ENABLED (settings self) = true →
  0 ≤ window_seconds_for self request →
  ascending (window_of request self) →
  Forall (λ t, (t ≤ now)%Qc) (window_of request self) →
  let q1 := window_of request (dispatch now request call_next self).2 in
  ascending q1
  ∧ Forall (λ t, (now - Qc_of_Z (window_seconds_for self request) ≤ t)%Qc
                 ∧ (t ≤ now)%Qc) q1.
Proof.
  intros Hon Hw Hasc Hle. cbv zeta. rewrite (dispatch_window _ _ _ _ Hon).
  unfold purged_window. fold (window_of request self).
  set (bound := (now - Qc_of_Z (window_seconds_for self request))%Qc).
  destruct (purge_ascending bound _ Hasc) as [Hasc1 Hge].
  pose proof (purge_Forall _ bound _ Hle) as Hle1.
  assert (Forall (λ t, (bound ≤ t)%Qc ∧ (t ≤ now)%Qc)
            (purge bound (window_of request self))) as Hboth.
  { apply Forall_and. by split. }
  destruct (decide _); [done|].
  split; [by apply ascending_snoc|].
  apply Forall_app. split; [done|]. constructor; [|done].
  split; [|apply Qcle_refl].
  unfold bound. rewrite Zle_Qle in Hw. qc_to_q. lra.
Qed.

(** X10: the window never outgrows the quota: after [dispatch] it holds
    no more timestamps than the larger of the quota of the endpoint and the
    number it held before; and a request that is let through leaves at most
    as many timestamps as the quota. *)
Theorem window_bounded now request call_next self :
  RATE_LIMIT_ENABLED (settings self) = true →
  let q1 := window_of request (dispatch now request call_next self).2 in
  Z.of_nat (length q1)
  ≤ max_requests_for self request
      `max` Z.of_nat (length (window_of request self))
  ∧ (Z.of_nat (length (purged_window now request self))
     < max_requests_for self request →
     Z.of_nat (length q1) ≤ max_requests_for self request
     ∧ last q1 = Some now).
Proof.
  intros Hon. cbv zeta. rewrite (dispatch_window _ _ _ _ Hon).
  assert (length (purged_window now request self)
          ≤ length (window_of request self))%nat as Hlen
    by apply length_purge.
  destruct (decide _) as [Hge|Hlt].
  - split; [lia|]. lia.
  - rewrite length_app, last_snoc. cbn. split; [lia|]. intros _.
    split; [lia|done].
Qed.

(** X11: with a quota of at least 1, [dispatch] always answers with a
    response.  With a quota of 0 or less, a client whose window is empty
    after the purge is not answered with a rejection: reading the oldest
    timestamp of the empty deque raises [IndexError]. *)
Theorem dispatch_index_error now request call_next self :
  RATE_LIMIT_ENABLED (settings self) = true →
  (1 ≤ max_requests_for self request →
     ∃ r, (dispatch now request call_next self).1 = inl r)
  ∧ (max_requests_for self request ≤ 0 →
     purged_window now request self = [] →
     (dispatch now request call_next self).1 = inr IndexError).
Proof.
  intros Hon. rewrite (dispatch_enabled _ _ _ _ Hon). cbv zeta. split.
  - intros Hmax. destruct (decide _) as [Hge|Hlt]; [|by eexists].
    destruct (purged_window now request self); [cbn in Hge; lia|by eexists].
  - intros Hmax ->. by rewrite decide_True by (cbn; lia).
Qed.

(** The time left is never negative after the purge. *)
Lemma wait_nonneg now request self oldest_request rest :
  purged_window now request self = oldest_request :: rest →
  (0 ≤ wait now request self oldest_request)%Qc.
Proof.
  intros Hq%purge_head. unfold wait. qc_to_q. lra.
Qed.

(** X12: waiting for the announced time is enough.  When a request is
    rejected on a window that holds exactly the quota, the same request
    made [retry_after_seconds] later, or at any time after that, is let
    through and recorded. *)
Theorem retry_after_suffices now now1 request call_next self
    oldest_request rest :
  RATE_LIMIT_ENABLED (settings self) = true →
  purged_window now request self = oldest_request :: rest →
  Z.of_nat (length (oldest_request :: rest))
  = max_requests_for self request →
  let retry_after := py_int (wait now request self oldest_request) + 1 in
  let self1 := (dispatch now request call_next self).2 in
  (now + Qc_of_Z retry_after ≤ now1)%Qc →
  retry_after_seconds (dispatch now request call_next self).1
  = Some retry_after
  ∧ Z.of_nat (length (purged_window now1 request self1))
    < max_requests_for self1 request
  ∧ last (window_of request (dispatch now1 request call_next self1).2)
    = Some now1.
Proof.
  intros Hon Hq Hfull. cbv zeta. intros Hlater.
  pose proof (wait_nonneg _ _ _ _ _ Hq) as Hpos.
  destruct (dispatch_frame now request call_next self (client_ip request))
    as [Hset _].
  assert (RATE_LIMIT_ENABLED
            (settings (dispatch now request call_next self).2) = true)
    as Hon1 by by rewrite Hset.
  assert (max_requests_for (dispatch now request call_next self).2 request
          = max_requests_for self request) as Hmax
    by (unfold max_requests_for; by rewrite (limit_settings _ self _ Hset)).
  assert (window_seconds_for (dispatch now request call_next self).2 request
          = window_seconds_for self request) as Hwin
    by (unfold window_seconds_for; by rewrite (limit_settings _ self _ Hset)).
  assert (Z.of_nat (length (purged_window now1 request
                              (dispatch now request call_next self).2))
          < max_requests_for self request) as Hroom.
  { unfold purged_window at 1. rewrite Hwin.
    fold (window_of request (dispatch now request call_next self).2).
    rewrite (dispatch_window _ _ _ _ Hon), Hq.
    rewrite decide_True by lia. cbn [purge].
    rewrite decide_True.
    - pose proof (length_purge
                    (now1 - Qc_of_Z (window_seconds_for self request)) rest).
      cbn [length] in Hfull. lia.
    - rewrite py_int_floor in Hlater by done. unfold floor in Hlater.
      clear Hpos.
      remember (wait now request self oldest_request) as x eqn:Hxdef.
      assert (this x == this oldest_request
                        + inject_Z (window_seconds_for self request)
                        - this now)%Q as Hx.
      { subst x. unfold wait. qc_to_q. ring. }
      clear Hxdef.
      pose proof (Qlt_floor (this x)) as Hf. rewrite inject_Z_plus in Hf.
      qc_to_q. rewrite inject_Z_plus in Hlater. lra. }
  split; [|split].
  - rewrite (dispatch_enabled _ _ _ _ Hon). cbv zeta.
    rewrite Hq, decide_True by lia. done.
  - by rewrite Hmax.
  - rewrite (dispatch_window _ _ _ _ Hon1), Hmax.
    rewrite decide_False by lia. apply last_snoc.
Qed.

(** X13: after a silence as long as the window the client has its whole
    quota again: when every timestamp of the deque is older than
    [now - window_seconds] and the quota is at least 1, the request is let
    through, and the handler is called with a window that holds that
    request alone.  The response announces [max(0, max_requests - count)]
    remaining requests for the count of the window when the handler has
    returned: [max_requests - 1] when no other request of the client was
    recorded meanwhile. *)
Theorem quota_restored now request (call_next : in_flight) self :
  RATE_LIMIT_ENABLED (settings self) = true →
  1 ≤ max_requests_for self request →
  Forall (λ t, (t < now - Qc_of_Z (window_seconds_for self request))%Qc)
         (window_of request self) →
  let served :=
    call_next request
      (<[client_ip request := [now]]> (client_requests self)) in
  ∃ r, (dispatch_in_flight now request call_next self).1 = inl r
       ∧ client_requests (dispatch_in_flight now request call_next self).2
         = served.2
       ∧ status_code r = status_code served.1
       ∧ content r = content served.1
       ∧ headers r !! "X-RateLimit-Remaining"
         = Some (str (Z.max 0
                        (max_requests_for self request
                         - Z.of_nat
                             (length (default []
                                        (served.2 !! client_ip request))))))
       ∧ (served.2 !! client_ip request = Some [now] →
            headers r !! "X-RateLimit-Remaining"
            = Some (str (max_requests_for self request - 1))).
Proof.
  intros Hon Hmax Hold0. cbv zeta.
  assert (purged_window now request self = []) as Hold
    by (apply purge_all_old; exact Hold0).
  rewrite (dispatch_in_flight_enabled _ _ _ _ Hon). cbv zeta. rewrite Hold.
  rewrite decide_False by (cbn; lia). cbn [app fst snd].
  eexists. split; [reflexivity|]. cbn.
  do 3 (split; [done|]).
  rewrite lookup_insert_ne by done. rewrite lookup_insert_eq.
  split; [done|]. intros ->. cbn. do 2 f_equal. lia.
Qed.

Lemma purge_none bound client_queue :
  Forall (λ t, (bound ≤ t)%Qc) client_queue →
  purge bound client_queue = client_queue.
Proof.
  destruct 1 as [|x q Hx Hq]; cbn; [done|].
  rewrite decide_False; [done|]. by apply Qcle_not_lt.
Qed.

(** Requests that all fall inside one window are recorded up to the
    quota. *)
Lemma dispatch_all_window times request call_next self :
  RATE_LIMIT_ENABLED (settings self) = true →
  (Z.of_nat (length (window_of request self))
   ≤ 0 `max` max_requests_for self request) →
  (∀ t x, t ∈ times → x ∈ window_of request self ++ times →
          (t - Qc_of_Z (window_seconds_for self request) ≤ x)%Qc) →
  window_of request (dispatch_all times request call_next self)
  = take (Z.to_nat (max_requests_for self request))
         (window_of request self ++ times).
Proof.
  revert self. induction times as [|now times IH]; intros self Hon Hlen Hin.
  - cbn. rewrite app_nil_r, take_ge; [done|lia].
  - change (dispatch_all (now :: times) request call_next self)
      with (dispatch_all times request call_next
              (dispatch now request call_next self).2).
    destruct (dispatch_frame now request call_next self (client_ip request))
      as [Hset _].
    assert (max_requests_for (dispatch now request call_next self).2 request
            = max_requests_for self request) as Hmax
      by (unfold max_requests_for;
          by rewrite (limit_settings _ self _ Hset)).
    assert (window_seconds_for (dispatch now request call_next self).2
              request = window_seconds_for self request) as Hwin
      by (unfold window_seconds_for;
          by rewrite (limit_settings _ self _ Hset)).
    assert (purged_window now request self = window_of request self) as Hq.
    { apply purge_none, Forall_forall. intros x Hx.
      apply Hin; [left|]. apply elem_of_app. by left. }
    pose proof (dispatch_window now request call_next self Hon) as Hw.
    rewrite Hq in Hw.
    rewrite IH; rewrite ?Hset, ?Hmax, ?Hwin, ?Hw; [|done| |].
    + destruct (decide _) as [Hge|Hlt].
      * rewrite !take_app_le by lia. done.
      * by rewrite <- app_assoc.
    + destruct (decide _) as [Hge|Hlt]; [done|].
      rewrite length_app. cbn. lia.
    + intros t x Ht Hx. apply Hin; [by right|].
      destruct (decide _) as [Hge|Hlt].
      * apply elem_of_app in Hx as [Hx|Hx]; apply elem_of_app;
          [by left|right; by right].
      * rewrite <- app_assoc in Hx. exact Hx.
Qed.

(** X21: the quota is enforced.  When a client without recorded requests
    makes the same request at times that all fall inside one window (no
    time is more than [window_seconds] later than another), exactly the
    first [max_requests] of them are let through and recorded; the others
    leave no trace in the window. *)
Theorem quota_enforced times request call_next self :
  RATE_LIMIT_ENABLED (settings self) = true →
  window_of request self = [] →
  (∀ t x, t ∈ times → x ∈ times →
          (t - Qc_of_Z (window_seconds_for self request) ≤ x)%Qc) →
  window_of request (dispatch_all times request call_next self)
  = take (Z.to_nat (max_requests_for self request)) times.
Proof.
  intros Hon Hempty Hin.
  rewrite (dispatch_all_window _ _ _ _ Hon); rewrite Hempty; [done|cbn; lia|].
  intros t x Ht Hx. by apply Hin.
Qed.

(** The window of the example client after four requests. *)
Lemma four_requests_window :
  window_of general_request four_requests
  = Qc_of_Z <$> [100; 101; 102; 103].
Proof. by vm_compute. Qed.

(** A fifth request at time 104 keeps the window in order. *)
Lemma window_invariant_witness :
  RATE_LIMIT_ENABLED (settings four_requests) = true
  ∧ 0 ≤ window_seconds_for four_requests general_request
  ∧ ascending (window_of general_request four_requests)
  ∧ Forall (λ t, (t ≤ Qc_of_Z 104)%Qc)
           (window_of general_request four_requests)
  ∧ ascending (window_of general_request five_requests)
  ∧ Forall (λ t, (Qc_of_Z 104
                  - Qc_of_Z (window_seconds_for four_requests
                               general_request) ≤ t)%Qc
                 ∧ (t ≤ Qc_of_Z 104)%Qc)
           (window_of general_request five_requests).
Proof.
  assert (RATE_LIMIT_ENABLED (settings four_requests) = true) as Hon
    by reflexivity.
  assert (0 ≤ window_seconds_for four_requests general_request) as Hw
    by by vm_compute.
  assert (ascending (window_of general_request four_requests)) as Hasc.
  { rewrite four_requests_window. cbn.
    repeat (split || constructor); by vm_compute. }
  assert (Forall (λ t, (t ≤ Qc_of_Z 104)%Qc)
            (window_of general_request four_requests)) as Hle.
  { rewrite four_requests_window. cbn. repeat constructor; by vm_compute. }
  do 4 (split; [assumption|]).
  exact (window_invariant (Qc_of_Z 104) general_request ok_handler
           four_requests Hon Hw Hasc Hle).
Defined.

(** A sixth request, rejected, leaves five timestamps for a quota of 5. *)
Lemma window_bounded_witness :
  RATE_LIMIT_ENABLED (settings five_requests) = true
  ∧ Z.of_nat (length (window_of auth_request
                        (dispatch (Qc_of_Z 130) auth_request ok_handler
                           five_requests).2))
    ≤ max_requests_for five_requests auth_request
        `max` Z.of_nat (length (window_of auth_request five_requests)).
Proof.
  assert (RATE_LIMIT_ENABLED (settings five_requests) = true) as Hon
    by by vm_compute.
  split; [exact Hon|].
  exact (proj1 (window_bounded (Qc_of_Z 130) auth_request ok_handler
                  five_requests Hon)).
Defined.

(** A quota of 0 on a fresh limiter raises; the default quota answers. *)
Lemma dispatch_index_error_witness :
  RATE_LIMIT_ENABLED (settings (init zero_quota)) = true
  ∧ max_requests_for (init zero_quota) general_request ≤ 0
  ∧ purged_window (Qc_of_Z 100) general_request (init zero_quota) = []
  ∧ (dispatch (Qc_of_Z 100) general_request ok_handler
       (init zero_quota)).1 = inr IndexError
  ∧ 1 ≤ max_requests_for five_requests auth_request
  ∧ ∃ r, (dispatch (Qc_of_Z 130) auth_request ok_handler
            five_requests).1 = inl r.
Proof.
  assert (max_requests_for (init zero_quota) general_request ≤ 0) as Hmax
    by by vm_compute.
  assert (purged_window (Qc_of_Z 100) general_request (init zero_quota)
          = []) as Hq by by vm_compute.
  assert (RATE_LIMIT_ENABLED (settings five_requests) = true) as Hon
    by by vm_compute.
  assert (1 ≤ max_requests_for five_requests auth_request) as Hmax1
    by by vm_compute.
  split; [reflexivity|]. split; [exact Hmax|]. split; [exact Hq|].
  split.
  - exact (proj2 (dispatch_index_error (Qc_of_Z 100) general_request
                    ok_handler (init zero_quota) eq_refl) Hmax Hq).
  - split; [exact Hmax1|].
    exact (proj1 (dispatch_index_error (Qc_of_Z 130) auth_request
                    ok_handler five_requests Hon) Hmax1).
Defined.

(** Rejected at 130 with a hint of 271 seconds, let through at 401. *)
Lemma retry_after_suffices_witness :
  RATE_LIMIT_ENABLED (settings five_requests) = true
  ∧ purged_window (Qc_of_Z 130) auth_request five_requests
    = Qc_of_Z <$> [100; 101; 102; 103; 104]
  ∧ max_requests_for five_requests auth_request = 5
  ∧ retry_after_seconds
      (dispatch (Qc_of_Z 130) auth_request ok_handler five_requests).1
    = Some 271
  ∧ last (window_of auth_request
            (dispatch (Qc_of_Z 401) auth_request ok_handler
               (dispatch (Qc_of_Z 130) auth_request ok_handler
                  five_requests).2).2)
    = Some (Qc_of_Z 401).
Proof.
  assert (RATE_LIMIT_ENABLED (settings five_requests) = true) as Hon
    by by vm_compute.
  assert (purged_window (Qc_of_Z 130) auth_request five_requests
          = Qc_of_Z 100 :: (Qc_of_Z <$> [101; 102; 103; 104])) as Hq
    by by vm_compute.
  assert (Z.of_nat (length (Qc_of_Z 100
                            :: (Qc_of_Z <$> [101; 102; 103; 104])))
          = max_requests_for five_requests auth_request) as Hfull
    by by vm_compute.
  destruct (retry_after_suffices (Qc_of_Z 130) (Qc_of_Z 401) auth_request
              ok_handler five_requests _ _ Hon Hq Hfull) as (H1 & _ & H3);
    [by vm_compute|].
  split; [exact Hon|]. split; [exact Hq|]. split; [by vm_compute|].
  split; [|exact H3].
  rewrite H1. by vm_compute.
Defined.

(** After a long silence the general quota of 100 is whole again: 99
    requests remain for a request handled alone, 98 when a second request
    of the client is recorded meanwhile. *)
Lemma quota_restored_witness :
  RATE_LIMIT_ENABLED (settings four_requests) = true
  ∧ 1 ≤ max_requests_for four_requests general_request
  ∧ (∃ r, (dispatch_in_flight (Qc_of_Z 1000) general_request
             (alone ok_handler) four_requests).1 = inl r
          ∧ headers r !! "X-RateLimit-Remaining" = Some "99")
  ∧ (∃ r, (dispatch_in_flight (Qc_of_Z 1000) general_request
             busy_handler four_requests).1 = inl r
          ∧ headers r !! "X-RateLimit-Remaining" = Some "98").
Proof.
  assert (RATE_LIMIT_ENABLED (settings four_requests) = true) as Hon
    by reflexivity.
  assert (1 ≤ max_requests_for four_requests general_request) as Hmax
    by by vm_compute.
  assert (Forall (λ t, (t < Qc_of_Z 1000
                            - Qc_of_Z (window_seconds_for four_requests
                                         general_request))%Qc)
            (window_of general_request four_requests)) as Hold.
  { rewrite four_requests_window. cbn. repeat constructor; by vm_compute. }
  split; [exact Hon|]. split; [exact Hmax|]. split.
  - destruct (quota_restored (Qc_of_Z 1000) general_request
                (alone ok_handler) four_requests Hon Hmax Hold)
      as (r & H1 & _ & _ & _ & _ & H2).
    exists r. split; [exact H1|]. rewrite H2; by vm_compute.
  - destruct (quota_restored (Qc_of_Z 1000) general_request
                busy_handler four_requests Hon Hmax Hold)
      as (r & H1 & _ & _ & _ & H2 & _).
    exists r. split; [exact H1|]. rewrite H2. by vm_compute.
Defined.

(** Seven authentication requests within six seconds: five are kept. *)
Lemma quota_enforced_witness :
  RATE_LIMIT_ENABLED (settings (init default_settings)) = true
  ∧ window_of auth_request (init default_settings) = []
  ∧ window_of auth_request
      (dispatch_all (Qc_of_Z <$> [100; 101; 102; 103; 104; 105; 106])
         auth_request ok_handler (init default_settings))
    = Qc_of_Z <$> [100; 101; 102; 103; 104].
Proof.
  split; [reflexivity|]. split; [reflexivity|].
  rewrite (quota_enforced _ auth_request ok_handler (init default_settings)
             eq_refl eq_refl); [reflexivity|].
  intros t x Ht Hx.
  assert (Qc_of_Z 100 ≤ x)%Qc as Hlo.
  { cbn in Hx. repeat (apply elem_of_cons in Hx as [->|Hx]; [by vm_compute|]).
    by apply elem_of_nil in Hx. }
  assert (t ≤ Qc_of_Z 106)%Qc as Hhi.
  { cbn in Ht. repeat (apply elem_of_cons in Ht as [->|Ht]; [by vm_compute|]).
    by apply elem_of_nil in Ht. }
  change (window_seconds_for (init default_settings) auth_request) with 300.
  assert (Qc_of_Z 106 - Qc_of_Z 300 ≤ Qc_of_Z 100)%Qc as Hmid
    by by vm_compute.
  qc_to_q. lra.
Defined.

End RateLimitMore.

(** ** Circuit breaker: further properties *)

Module CircuitBreakerMore.
Import CircuitBreaker CircuitBreakerProps.

Section Props.
Context {Exc : Type}.
Implicit Types b : t Exc.

Lemma calls_length {W A : Type} times (body : W → (A + Exc) * W) w b :
  length (calls times body w b).1.1 = length times.
Proof.
  revert w b. induction times as [|[t_enter t_exit] times IH]; intros w b;
    [done|].
  cbn [calls].
  destruct (async_with t_enter t_exit body w b) as [[o w1] b1].
  specialize (IH w1 b1).
  destruct (calls times body w1 b1) as [[os w2] b2]. cbn in *. by rewrite IH.
Qed.

(** One guarded call on a closed breaker: the operation runs, and the
    breaker counts its outcome if it is an exception of the configured
    class, and opens when the count reaches the threshold. *)
Lemma async_with_closed {W A : Type} b t_enter t_exit
    (body : W → (A + Exc) * W) w :
  state b = CLOSED →
  let r := async_with t_enter t_exit body w b in
  let failed := is_classified (expected_exception b) r.1.1 in
  (∀ h, r.1.1 ≠ Unavailable h)
  ∧ failure_threshold r.2 = failure_threshold b
  ∧ expected_exception r.2 = expected_exception b
  ∧ failure_count r.2 = failure_count b + (if failed then 1 else 0)
  ∧ state r.2 = (if failed && bool_decide (failure_threshold b
                                           ≤ failure_count b + 1)
                 then OPEN else CLOSED).
Proof.
  intros Hs. cbv zeta. unfold async_with, aenter.
  rewrite decide_False by (rewrite Hs; discriminate).
  destruct (body w) as [[a|e] w1]; unfold aexit.
  - rewrite decide_False by (rewrite Hs; discriminate). cbn.
    rewrite Hs. repeat split; try done. lia.
  - destruct (expected_exception b e) eqn:He; cbn; rewrite ?He; cbn.
    + destruct (decide (failure_threshold b ≤ failure_count b + 1));
        cbn; rewrite ?He; cbn.
      * rewrite bool_decide_eq_true_2 by done. done.
      * rewrite bool_decide_eq_false_2 by done. rewrite Hs. done.
    + rewrite Hs. repeat split; try done. lia.
Qed.

Lemma classified_failures_cons {A : Type} (exp : Exc → bool)
    (o : outcome Exc A) os :
  classified_failures exp (o :: os)
  = ((if is_classified exp o then 1 else 0)
     + classified_failures exp os)%nat.
Proof.
  unfold classified_failures. rewrite filter_cons.
  by destruct (is_classified exp o).
Qed.

(** Guarded calls on a closed breaker, as long as the count stays below
    the threshold before the last of them. *)
Lemma calls_accounting {W A : Type} times (body : W → (A + Exc) * W) w b :
  state b = CLOSED →
  let r := calls times body w b in
  failure_count b
  + Z.of_nat (classified_failures (expected_exception b) (removelast r.1.1))
  < failure_threshold b →
  Forall (λ o, ∀ h, o ≠ Unavailable h) r.1.1
  ∧ failure_count r.2
    = failure_count b
      + Z.of_nat (classified_failures (expected_exception b) r.1.1)
  ∧ state r.2 = (if decide (failure_threshold b ≤ failure_count r.2)
                 then OPEN else CLOSED).
Proof.
  revert w b. induction times as [|[t_enter t_exit] times IH];
    intros w b Hs; cbv zeta.
  - cbn. intros Hlt. split; [done|]. split; [lia|].
    rewrite decide_False by lia. done.
  - pose proof (calls_length times body) as Hlen.
    cbn [calls].
    destruct (async_with_closed b t_enter t_exit body w Hs)
      as (Hrun & Hthr & Hexp & Hcnt & Hst).
    destruct (async_with t_enter t_exit body w b) as [[o w1] b1].
    cbn [fst snd] in Hrun, Hthr, Hexp, Hcnt, Hst.
    specialize (IH w1 b1). specialize (Hlen w1 b1).
    destruct (calls times body w1 b1) as [[os w2] b2] eqn:Hrest.
    cbn [fst snd] in *. rewrite Hexp, Hthr in IH.
    rewrite classified_failures_cons.
    destruct times as [|t times].
    + cbn in Hrest. injection Hrest as <- <- <-. cbn [removelast].
      unfold classified_failures at 1 2. cbn [filter length list_filter].
      intros Hlt.
      split; [by constructor|]. rewrite Hst, Hcnt.
      destruct (is_classified (expected_exception b) o);
        cbn [andb Nat.add]; (split; [lia|]).
      * destruct (decide (failure_threshold b ≤ failure_count b + 1)).
        -- rewrite bool_decide_eq_true_2 by done. done.
        -- rewrite bool_decide_eq_false_2 by done. done.
      * rewrite decide_False by lia. done.
    + destruct os as [|o1 os]; [done|].
      change (removelast (o :: o1 :: os)) with (o :: removelast (o1 :: os)).
      rewrite classified_failures_cons. intros Hlt.
      assert (state b1 = CLOSED) as Hs1.
      { rewrite Hst.
        destruct (is_classified (expected_exception b) o); [|done]. cbn.
        rewrite bool_decide_eq_false_2; [done|]. lia. }
      destruct (IH Hs1) as (Hall & Hcnt2 & Hst2).
      { rewrite Hcnt. destruct (is_classified (expected_exception b) o); lia. }
      split; [by constructor|]. split.
      * rewrite Hcnt2, Hcnt.
        destruct (is_classified (expected_exception b) o); lia.
      * exact Hst2.
Qed.

(** X14: what the breaker counts while it has not opened.  In a sequence
    of guarded calls on a new breaker in which fewer than
    [failure_threshold] exceptions of the configured class were raised
    before the last call, every call is let through; the failure count is
    then the number of exceptions of the configured class that were raised
    (successes and other exceptions neither add to it nor reset it), and
    the circuit is open after the last call exactly when that number has
    reached the threshold. *)
Theorem failure_accounting {W A : Type} thr tmo (exp : Exc → bool) times
    (body : W → (A + Exc) * W) w :
  let r := calls times body w (init thr tmo exp) in
  Z.of_nat (classified_failures exp (removelast r.1.1)) < thr →
  Forall (λ o, ∀ h, o ≠ Unavailable h) r.1.1
  ∧ length r.1.1 = length times
  ∧ failure_count r.2 = Z.of_nat (classified_failures exp r.1.1)
  ∧ state r.2 = (if decide (thr ≤ Z.of_nat (classified_failures exp r.1.1))
                 then OPEN else CLOSED).
Proof.
  cbv zeta. intros Hlt.
  destruct (calls_accounting times body w (init thr tmo exp))
    as (Hall & Hcnt & Hst); [done|cbn; lia|].
  cbn in Hcnt, Hst. split; [done|]. split; [apply calls_length|].
  split; [lia|]. rewrite Hst, Hcnt. by rewrite Z.add_0_l.
Qed.

(** X15: in every state reached from [__init__] the configuration is
    the one given at construction, the failure count is not negative, and
    the circuit is open or half open only if the count has reached the
    threshold and the time of the last failure is recorded. *)
Theorem open_only_at_threshold thr tmo (exp : Exc → bool) b :
  reachable thr tmo exp b →
  failure_threshold b = thr
  ∧ timeout b = tmo
  ∧ 0 ≤ failure_count b
  ∧ (state b ≠ CLOSED →
       thr ≤ failure_count b
       ∧ ∃ last, last_failure_time b = Some last ∧ (0 < last)%Qc).
Proof.
  intros [H1 H2 H3 H4 H5 H6 H7]%reachable_inv.
  do 3 (split; [done|]). intros Hs. split; [by apply H5|].
  destruct (H6 Hs) as [last Hlast]. exists last. split; [done|by apply H7].
Qed.

(** X16: a failed probe restarts the wait.  When the call let through in
    the HALF_OPEN state raises a classified exception at [t_fail], the
    circuit is open again with [t_fail] as the time of the last failure:
    entries are rejected, without running the operation, until [timeout]
    seconds after [t_fail], and the first entry from then on is the next
    probe. *)
Theorem failed_probe_restarts {W A : Type} thr tmo (exp : Exc → bool) b
    t_fail e :
  reachable thr tmo exp b → state b = HALF_OPEN → exp e = true →
  (0 < t_fail)%Qc →
  let b1 := (aexit t_fail (Some e) b).2 in
  state b1 = OPEN
  ∧ last_failure_time b1 = Some t_fail
  ∧ (∀ now t_exit (body : W → (A + Exc) * W) w,
       (now - t_fail < Qc_of_Z tmo)%Qc →
       async_with now t_exit body w b1
       = (Unavailable HTTP_503_SERVICE_UNAVAILABLE, w, b1))
  ∧ (∀ now, (Qc_of_Z tmo ≤ now - t_fail)%Qc →
       aenter now b1 = (inl (), set_state HALF_OPEN b1)).
Proof.
  intros [H1 H2 H3 H4 H5 H6 H7]%reachable_inv Hh He Hpos. cbv zeta.
  assert ((aexit t_fail (Some e) b).2
          = set_state OPEN
              (set_last_failure_time (Some t_fail)
                 (set_failure_count (failure_count b + 1) b))) as ->.
  { unfold aexit. rewrite H3, He. cbn.
    rewrite decide_True; [done|].
    specialize (H5 ltac:(by rewrite Hh)). lia. }
  split; [done|]. split; [done|]. split.
  - intros now t_exit body w Hlt. unfold async_with, aenter. cbn.
    rewrite H2.
    rewrite (bool_decide_eq_false_2 (Qc_of_Z tmo ≤ now - t_fail)%Qc)
      by by apply Qclt_not_le.
    by rewrite andb_false_r.
  - intros now Hge. unfold aenter. cbn. rewrite H2.
    rewrite (bool_decide_eq_true_2 (Qc_of_Z tmo ≤ now - t_fail)%Qc) by done.
    rewrite bool_decide_eq_true_2; [done|].
    intros ->. by apply (Qclt_not_eq _ _ Hpos).
Qed.

(** X17: a recovery gives the whole allowance back.  After the success
    of the probe the breaker again lets [failure_threshold] consecutive
    failing calls through, stays CLOSED as long as fewer have failed, and
    opens at the last of them. *)
Theorem recovery_restores_allowance {W A : Type} thr tmo (exp : Exc → bool)
    b now times (body : W → (A + Exc) * W) w :
  reachable thr tmo exp b → state b = HALF_OPEN →
  (∀ w, ∃ e w1, body w = (inr e, w1) ∧ exp e = true) →
  times ≠ [] → Z.of_nat (length times) ≤ thr →
  ∃ os w1 b1,
    calls times body w (aexit now None b).2 = (os, w1, b1)
    ∧ Forall (λ o, ∃ e, o = Raised e) os
    ∧ failure_count b1 = Z.of_nat (length times)
    ∧ state b1 = (if decide (Z.of_nat (length times) = thr)
                  then OPEN else CLOSED).
Proof.
  intros [H1 H2 H3 H4 H5 H6 H7]%reachable_inv Hh Hbody Hne Hlen.
  assert ((aexit now None b).2 = set_failure_count 0 (set_state CLOSED b))
    as -> by (unfold aexit; by rewrite decide_True).
  destruct (calls_closed_failures body times
              (set_failure_count 0 (set_state CLOSED b)) w)
    as (os & w1 & b1 & Hcalls & Hos & Hcnt & Hst);
    [cbn; by rewrite H3|done|done|cbn; lia|].
  exists os, w1, b1. cbn in Hcnt, Hst. rewrite H1 in Hst.
  split; [done|]. split; [done|]. split; [lia|].
  rewrite Hcnt in Hst. rewrite Hst.
  repeat case_decide; try done; exfalso; lia.
Qed.

End Props.

(** A failure, a success, an exception outside the class and a second
    failure on a breaker of threshold 2: the count is 2 and the circuit is
    open. *)
Lemma failure_accounting_witness :
  Z.of_nat
    (classified_failures only_true
       (removelast
          (calls [(Qc_of_Z 1, Qc_of_Z 2); (Qc_of_Z 3, Qc_of_Z 4);
                  (Qc_of_Z 5, Qc_of_Z 6); (Qc_of_Z 7, Qc_of_Z 8)]
             scripted [inr true; inl (); inr false; inr true]
             (init 2 60 only_true)).1.1)) < 2
  ∧ failure_count
      (calls [(Qc_of_Z 1, Qc_of_Z 2); (Qc_of_Z 3, Qc_of_Z 4);
              (Qc_of_Z 5, Qc_of_Z 6); (Qc_of_Z 7, Qc_of_Z 8)]
         scripted [inr true; inl (); inr false; inr true]
         (init 2 60 only_true)).2 = 2
  ∧ state
      (calls [(Qc_of_Z 1, Qc_of_Z 2); (Qc_of_Z 3, Qc_of_Z 4);
              (Qc_of_Z 5, Qc_of_Z 6); (Qc_of_Z 7, Qc_of_Z 8)]
         scripted [inr true; inl (); inr false; inr true]
         (init 2 60 only_true)).2 = OPEN.
Proof.
  assert (Z.of_nat
            (classified_failures only_true
               (removelast
                  (calls [(Qc_of_Z 1, Qc_of_Z 2); (Qc_of_Z 3, Qc_of_Z 4);
                          (Qc_of_Z 5, Qc_of_Z 6); (Qc_of_Z 7, Qc_of_Z 8)]
                     scripted [inr true; inl (); inr false; inr true]
                     (init 2 60 only_true)).1.1)) < 2) as Hlt
    by by vm_compute.
  destruct (failure_accounting 2 60 only_true _ scripted _ Hlt)
    as (_ & _ & Hcnt & Hst).
  split; [exact Hlt|]. split.
  - rewrite Hcnt. by vm_compute.
  - rewrite Hst. by vm_compute.
Defined.

(** The example breaker of threshold 2 is open, at its threshold. *)
Lemma open_only_at_threshold_witness :
  reachable 2 60 any_exception open_breaker
  ∧ state open_breaker ≠ CLOSED
  ∧ failure_count open_breaker = 2
  ∧ 2 ≤ failure_count open_breaker
  ∧ ∃ last, last_failure_time open_breaker = Some last ∧ (0 < last)%Qc.
Proof.
  destruct (open_only_at_threshold 2 60 any_exception open_breaker
              open_breaker_reachable) as (_ & _ & _ & Hopen).
  assert (state open_breaker ≠ CLOSED) as Hs by done.
  split; [exact open_breaker_reachable|]. split; [exact Hs|].
  split; [reflexivity|]. exact (Hopen Hs).
Defined.

(** The half-open example breaker, with a probe that fails at 101. *)
Lemma half_open_breaker_reachable :
  reachable 2 60 any_exception half_open_breaker.
Proof.
  apply (reach_enter _ _ _ _ (Qc_of_Z 100) open_breaker_reachable).
  reflexivity.
Qed.

Lemma failed_probe_restarts_witness :
  state half_open_breaker = HALF_OPEN
  ∧ any_exception () = true
  ∧ (0 < Qc_of_Z 101)%Qc
  ∧ state (aexit (Qc_of_Z 101) (Some ()) half_open_breaker).2 = OPEN
  ∧ async_with (Qc_of_Z 150) (Qc_of_Z 151) working_op 7%nat
      (aexit (Qc_of_Z 101) (Some ()) half_open_breaker).2
    = (Unavailable HTTP_503_SERVICE_UNAVAILABLE, 7%nat,
       (aexit (Qc_of_Z 101) (Some ()) half_open_breaker).2)
  ∧ (aenter (Qc_of_Z 161)
       (aexit (Qc_of_Z 101) (Some ()) half_open_breaker).2).1 = inl ().
Proof.
  destruct (failed_probe_restarts (W:=nat) (A:=unit) 2 60 any_exception
              half_open_breaker (Qc_of_Z 101) ()
              half_open_breaker_reachable eq_refl eq_refl eq_refl)
    as (H1 & _ & H3 & H4).
  split; [reflexivity|]. split; [reflexivity|]. split; [reflexivity|].
  split; [exact H1|]. split; [apply H3; reflexivity|].
  rewrite H4; [reflexivity|by vm_compute].
Defined.

(** After the probe succeeds at 101, two failing calls open the circuit
    again. *)
Lemma recovery_restores_allowance_witness :
  state half_open_breaker = HALF_OPEN
  ∧ Z.of_nat (length [(Qc_of_Z 102, Qc_of_Z 103);
                      (Qc_of_Z 104, Qc_of_Z 105)]) ≤ 2
  ∧ state (calls [(Qc_of_Z 102, Qc_of_Z 103); (Qc_of_Z 104, Qc_of_Z 105)]
             failing_op 0%nat
             (aexit (Qc_of_Z 101) None half_open_breaker).2).2 = OPEN.
Proof.
  destruct (recovery_restores_allowance 2 60 any_exception
              half_open_breaker (Qc_of_Z 101)
              [(Qc_of_Z 102, Qc_of_Z 103); (Qc_of_Z 104, Qc_of_Z 105)]
              failing_op 0%nat half_open_breaker_reachable eq_refl)
    as (os & w1 & b1 & Hcalls & _ & _ & Hst).
  - intros w. by exists (), (S w).
  - done.
  - cbn. lia.
  - split; [reflexivity|]. split; [cbn; lia|].
    rewrite Hcalls. exact Hst.
Defined.

End CircuitBreakerMore.

(** ** Metrics collector: further properties *)

Module MetricsMore.
Import MetricsMiddleware MetricsProps.

Lemma run_snoc cs c : run (cs ++ [c]) = dispatch c (run cs).
Proof. unfold run. by rewrite foldl_app. Qed.

(** The counters after a sequence of calls. *)
Lemma run_counters cs :
  total_requests (run cs) = Z.of_nat (length cs)
  ∧ total_errors (run cs)
    = Z.of_nat (length (filter (λ c, is_error c = true) cs)).
Proof.
  induction cs as [|c cs [IH1 IH2]] using rev_ind; [done|].
  rewrite run_snoc, filter_app, !length_app, filter_cons, filter_nil.
  cbn [length]. unfold dispatch.
  destruct (result c) as [status_code|[]] eqn:Hres;
    cbn [total_requests total_errors]; rewrite IH1, ?IH2.
  - split; [lia|].
    assert (is_error c = bool_decide (400 ≤ status_code)) as ->
      by (unfold is_error; by rewrite Hres).
    destruct (decide (400 ≤ status_code)) as [Hge|Hlt].
    + rewrite bool_decide_eq_true_2 by done.
      rewrite decide_True by done. cbn [length]. lia.
    + rewrite bool_decide_eq_false_2 by done.
      rewrite decide_False by done. cbn [length]. lia.
  - split; [lia|].
    assert (is_error c = true) as ->
      by (unfold is_error; by rewrite Hres).
    rewrite decide_True by done. cbn [length]. lia.
  - split; [lia|].
    assert (is_error c = false) as ->
      by (unfold is_error; by rewrite Hres).
    rewrite decide_False by done. cbn [length]. lia.
Qed.

(** X18: the snapshot counts every call once, and as an error every call
    that was answered with a status of 400 or more or that raised an
    exception caught by [except Exception], and no other: a call ended by
    an exception outside [Exception], such as the cancellation by the
    enclosing timeout, is counted as a request and not as an error.  So the
    errors never outnumber the requests and the error rate lies between 0
    and 1, and is 0 when nothing was recorded. *)
Theorem error_rate_bounds cs :
  let m := get_metrics (run cs) in
  Snapshot.total_requests m = Z.of_nat (length cs)
  ∧ Snapshot.total_errors m
    = Z.of_nat (length (filter (λ c, is_error c = true) cs))
  ∧ 0 ≤ Snapshot.total_errors m ≤ Snapshot.total_requests m
  ∧ (0 ≤ Snapshot.error_rate m)%Qc
  ∧ (Snapshot.error_rate m ≤ 1)%Qc
  ∧ (cs = [] → Snapshot.error_rate m = Q2Qc 0).
Proof.
  cbv zeta. destruct (run_counters cs) as [Hreq Herr].
  pose proof (length_filter (λ c, is_error c = true) cs) as Hle.
  unfold get_metrics. cbn. rewrite Hreq, Herr.
  split; [done|]. split; [done|]. split; [lia|].
  set (e := Z.of_nat (length (filter _ cs))) in *.
  set (r := Z.of_nat (length cs)) in *.
  assert (0 ≤ e ≤ r) as [He Her] by lia.
  destruct (decide (0 < r)) as [Hr|Hr].
  - split; [|split; [|intros ->; subst r; cbn in Hr; lia]];
      rewrite Zle_Qle in He, Her; rewrite Zlt_Qlt in Hr.
    + unfold Qcle, Qcdiv, Qcmult, Qcinv, Qc_of_Z, Q2Qc. cbn [this].
      rewrite !Qred_correct. change (inject_Z 0) with 0%Q in *.
      apply Qle_shift_div_l; [done|]. by rewrite Qmult_0_l.
    + unfold Qcle, Qcdiv, Qcmult, Qcinv, Qc_of_Z, Q2Qc. cbn [this].
      rewrite !Qred_correct. change (inject_Z 0) with 0%Q in *.
      apply Qle_shift_div_r; [done|]. by rewrite Qmult_1_l.
  - split; [done|]. split; [done|]. done.
Qed.

(** X19: the table of status codes holds, for every status, the number
    of calls answered with it, and has no entry for a status that never
    occurred; calls that raised are in no entry. *)
Theorem status_code_counts cs status_code :
  status_codes (run cs) !! status_code
  = match completed_with status_code cs with
    | [] => None
    | answered => Some (Z.of_nat (length answered))
    end.
Proof.
  unfold completed_with.
  induction cs as [|c cs IH] using rev_ind; [done|].
  rewrite run_snoc, filter_app, filter_cons, filter_nil.
  unfold dispatch. destruct (result c) as [s|e] eqn:Hres; cbn.
  - destruct (decide (s = status_code)) as [->|Hne].
    + rewrite lookup_insert_eq, IH. rewrite decide_True by done.
      destruct (filter _ cs) as [|c1 l]; cbn; [done|].
      rewrite length_app. cbn. f_equal. lia.
    + rewrite lookup_insert_ne by done. rewrite IH.
      rewrite decide_False by congruence. by rewrite app_nil_r.
  - rewrite IH. rewrite decide_False by done. by rewrite app_nil_r.
Qed.

Lemma foldr_plus_snoc (l : list Qc) (d : Qc) :
  foldr Qcplus (Q2Qc 0) (l ++ [d]) = (foldr Qcplus (Q2Qc 0) l + d)%Qc.
Proof.
  induction l as [|x l IH]; cbn; [ring|]. rewrite IH. ring.
Qed.

(** The running average formula keeps the mean. *)
Lemma mean_snoc (l : list Qc) (d : Qc) :
  ((match l with
    | [] => Q2Qc 0
    | _ :: _ => arithmetic_mean l
    end * Qc_of_Z (Z.of_nat (length l) + 1 - 1) + d)
   / Qc_of_Z (Z.of_nat (length l) + 1))%Qc
  = arithmetic_mean (l ++ [d]).
Proof.
  unfold arithmetic_mean. rewrite foldr_plus_snoc, length_app. cbn [length].
  replace (Z.of_nat (length l + 1)) with (Z.of_nat (length l) + 1) by lia.
  replace (Z.of_nat (length l) + 1 - 1) with (Z.of_nat (length l)) by lia.
  assert (Qc_of_Z (Z.of_nat (length l) + 1) ≠ Q2Qc 0) as Hm.
  { rewrite <- Z2Qc_inj_0. intros Heq%Z2Qc_inj. lia. }
  destruct l as [|x l].
  - cbn. field. exact Hm.
  - assert (Qc_of_Z (Z.of_nat (length (x :: l))) ≠ Q2Qc 0) as Hn.
    { rewrite <- Z2Qc_inj_0. intros Heq%Z2Qc_inj. cbn in Heq. lia. }
    field. split; [exact Hm|exact Hn].
Qed.

(** X20: the running average of an endpoint is the mean of its
    durations.  After any sequence of calls, the entry of a path holds the
    number of calls on that path that were answered and the arithmetic mean
    of their durations; a path with no answered call has no entry. *)
Theorem endpoint_average cs p :
  endpoints (run cs) !! p
  = match durations_at p cs with
    | [] => None
    | ds => Some (Endpoint.mk (Z.of_nat (length ds)) (arithmetic_mean ds))
    end.
Proof.
  unfold durations_at.
  induction cs as [|c cs IH] using rev_ind; [done|].
  rewrite run_snoc, filter_app, filter_cons, filter_nil.
  destruct (decide (path c = p)) as [Hp|Hp].
  - rewrite recorded_snoc. unfold dispatch.
    destruct (result c) as [s|e]; cbn [endpoints].
    + rewrite Hp, lookup_insert_eq, IH.
      set (ds := recorded (filter (λ c, path c = p) cs)).
      assert (ds ++ [(end_time c - start_time c)%Qc] ≠ []) as Hne
        by by destruct ds.
      destruct (ds ++ [(end_time c - start_time c)%Qc]) as [|d0 ds0] eqn:E;
        [done|]. rewrite <- E. clear Hne.
      f_equal. rewrite <- mean_snoc, length_app. cbn [length].
      destruct ds as [|x l];
        cbn [from_option id Endpoint.count Endpoint.avg_response_time
             length];
        repeat (f_equal; try lia).
    + rewrite app_nil_r. exact IH.
  - rewrite app_nil_r. unfold dispatch.
    destruct (result c) as [s|e]; cbn [endpoints]; [|exact IH].
    rewrite lookup_insert_ne by done. exact IH.
Qed.

End MetricsMore.
